(** * The ceros-ski game controller ([src/Core/Game.ts])

    A shallow embedding of the [Game] class: the frame loop, the
    RUNNING / GAME_OVER state machine, the viewport computation, the score
    bookkeeping and the keyboard routing.

    Modelling conventions.

    - A JavaScript [number] is an exact rational ([Q]) in the model of the
      class.  Rounding of IEEE-754 doubles, [NaN] and the infinities are
      outside that model; equality of numbers that went through arithmetic
      is stated with [==].  Where rounding decides a property, the
      arithmetic of the method is given a second time on binary64 numbers,
      in the module [Binary64].
    - The class is stateful: every method is a computation in a small
      state-and-error monad [M] over the object's fields, a clock and a trace.
      The trace records, in program order, every method entry of the
      controller and every call it makes on a collaborator or on the platform.
    - The fields declared with [!] (definite assignment) are [undefined] until
      [init] assigns them; they are [option]s, and using one that is still
      [undefined] is the error of the monad.
    - [Canvas], [ImageManager], [ObstacleManager], [Skier] and [Rhino] live in
      other modules.  The controller is verified against their interface, the
      class [Collaborators]; [Sample] is one small implementation of it, used
      to run the controller on concrete inputs. *)

From Stdlib Require Import QArith Qround Qminmax Lqa.
From Stdlib Require Import ZArith Lia List String Ascii Bool.
From Stdlib Require Import DecimalString.
From Stdlib Require Import PrimFloat.
Import ListNotations.

Local Open Scope Q_scope.
Local Open Scope string_scope.

Definition number := Q.

(** [Math.max] on two arguments. *)
Definition Math_max (a b : number) : number := Qmax a b.

(** [Math.floor]; the result is an integer. *)
Definition Math_floor (a : number) : Z := Qfloor a.

(** What a template literal prints for an integral number. *)
Definition string_of_Z (z : Z) : string := NilZero.string_of_int (Z.to_int z).

(** ** Types of [./Utils] *)

(** Modelled from the spec: the class [Rect] of [./Utils], "a rectangle type
    with left/top/right/bottom"; [Rect.new l t r b] is [new Rect(l, t, r, b)]. *)
Module Rect.
Record t := new { left : number; top : number; right : number; bottom : number }.
End Rect.

(** Modelled from the spec: the type [Position] of [./Utils], what
    [getPosition] returns, "{x, y}". *)
Module Position.
Record t := new { x : number; y : number }.
End Position.

(** ** The arithmetic of the program *)

(** A JavaScript [number] as the program has it: an IEEE-754 binary64, with
    its rounding. *)
Module Binary64.

Record Rect := new { left : float; top : float; right : float; bottom : float }.

(** The arithmetic of [calculateGameWindow] (lines 185 to 188) for a skier
    at ([x], [y]), every operation rounding as the program's does. *)
Definition calculateGameWindow (x y GAME_WIDTH GAME_HEIGHT : float) : Rect :=
  let left := (x - GAME_WIDTH / 2)%float in
  let top := (y - GAME_HEIGHT / 2)%float in
  new left top (left + GAME_WIDTH)%float (top + GAME_HEIGHT)%float.

(** [a === b] on two numbers. *)
Definition same (a b : float) : bool := PrimFloat.eqb a b.

End Binary64.

(** ** The controller's own enumeration *)

Inductive GameState := RUNNING | GAME_OVER.

Definition GameState_eqb (a b : GameState) : bool :=
  match a, b with
  | RUNNING, RUNNING | GAME_OVER, GAME_OVER => true
  | _, _ => false
  end.

(** ** The trace *)

(** The methods of [Game]. *)
Inductive Method :=
| m_init | m_setupInputHandling | m_load | m_run | m_updateGameWindow
| m_saveMaxScore | m_updateScore | m_resetScore | m_drawScore
| m_drawGameWindow | m_calculateGameWindow | m_handleKeyDown
| m_restartGame | m_drawGameOver.

Inductive Event :=
| ECall (m : Method)
| ENewCanvas (id : string) (width height : number)
| EClearCanvas
| ESetDrawOffset (x y : number)
| EDrawText (text : string) (x y : number) (font color : string)
| ENewImageManager
| ELoadImages
| ENewObstacleManager
| EPlaceInitialObstacles
| EPlaceNewObstacle (gameWindow previousGameWindow : Rect.t)
| EDrawObstacles
| ENewSkier (x y : number)
| ESkierGetPosition
| ESkierUpdate (gameTime : number)
| ESkierHandleInput (key : string)
| ESkierDraw
| ENewRhino (x y : number)
| ERhinoUpdate (gameTime : number)
| ERhinoDraw
| EDateNow (t : number)
| EAddEventListener (type : string)
| EPreventDefault
| ERequestAnimationFrame.

(** ** The collaborators *)

(** The interface the controller uses; the classes are in other modules and
    are parameters here, and so are the constants of [../Constants].

    Objects are values.  A method is a function of its arguments, of the
    state of its receiver and of the states of the objects the receiver was
    constructed with, and it returns the new state of the object it changes:
    the canvas for a canvas method and for every [draw], the obstacle manager
    for its two placing methods, the skier for the skier's methods, and both
    the rhino and the skier for [Rhino.update], which is handed the skier.
    [init] replaces the canvas, the obstacle manager, the skier and the rhino
    together, so the objects a receiver was constructed with are always the
    ones the fields of [Game] hold. *)
Class Collaborators := {
  Canvas : Type;
  ImageManager : Type;
  ObstacleManager : Type;
  Skier : Type;
  Rhino : Type;
  SkierState : Type;
  Images : Type;

  GAME_CANVAS : string;
  GAME_WIDTH : number;
  GAME_HEIGHT : number;
  IMAGES : Images;

  new_Canvas : string -> number -> number -> Canvas;
  clearCanvas : Canvas -> Canvas;
  setDrawOffset : number -> number -> Canvas -> Canvas;
  drawText : string -> number -> number -> string -> string -> Canvas -> Canvas;

  new_ImageManager : ImageManager;
  loadImages : Images -> ImageManager -> ImageManager;

  new_ObstacleManager : ImageManager -> Canvas -> ObstacleManager;
  placeInitialObstacles : ImageManager -> Canvas -> ObstacleManager -> ObstacleManager;
  placeNewObstacle :
    Rect.t -> Rect.t -> ImageManager -> Canvas -> ObstacleManager -> ObstacleManager;
  drawObstacles : ObstacleManager -> ImageManager -> Canvas -> Canvas;

  STATE_DEAD : SkierState;
  SkierState_eq_dec : forall a b : SkierState, {a = b} + {a <> b};

  new_Skier : number -> number -> ImageManager -> ObstacleManager -> Canvas -> Skier;
  Skier_getPosition : Skier -> Position.t;
  Skier_state : Skier -> SkierState;
  Skier_update : number -> ImageManager -> ObstacleManager -> Canvas -> Skier -> Skier;
  Skier_handleInput :
    string -> ImageManager -> ObstacleManager -> Canvas -> Skier -> Skier * bool;
  Skier_draw : Skier -> ImageManager -> Canvas -> Canvas;

  new_Rhino : number -> number -> ImageManager -> Canvas -> Rhino;
  Rhino_update : number -> Skier -> ImageManager -> Canvas -> Rhino -> Rhino * Skier;
  Rhino_draw : Rhino -> ImageManager -> Canvas -> Canvas
}.

Section Controller.

Context {C : Collaborators}.

(** [===] on two states of the skier. *)
Definition SkierState_eqb (a b : SkierState) : bool :=
  if SkierState_eq_dec a b then true else false.

(** ** The fields of [Game] *)

Record Game := mkGame {
  canvas : option Canvas;
  gameWindow : option Rect.t;
  gameTime : number;
  imageManager : option ImageManager;
  obstacleManager : option ObstacleManager;
  skier : option Skier;
  rhino : option Rhino;
  gameState : GameState;
  score : number;
  maxScore : number
}.

(** The object together with what surrounds it: the successive readings of
    [Date.now()] ([clock], of which [ticks] were consumed) and the trace. *)
Record State := mkState {
  this : Game;
  clock : nat -> number;
  ticks : nat;
  trace : list Event
}.

(** ** The monad *)

Definition M (A : Type) : Type := State -> option (A * State).

Definition ret {A} (a : A) : M A := fun st => Some (a, st).

Definition bind {A B} (m : M A) (k : A -> M B) : M B :=
  fun st => match m st with
            | Some (a, st') => k a st'
            | None => None
            end.

(** Using a field that is still [undefined]. *)
Definition undefined {A} : M A := fun _ => None.

Notation "x <- m ;; k" := (bind m (fun x => k))
  (at level 61, m at next level, right associativity).
Notation "m ;; k" := (bind m (fun _ => k))
  (at level 61, right associativity).

Definition emit (e : Event) : M unit :=
  fun st => Some (tt, mkState (this st) (clock st) (ticks st) (trace st ++ [e])).

Definition call (m : Method) : M unit := emit (ECall m).

Definition read {A} (f : Game -> A) : M A := fun st => Some (f (this st), st).

Definition deref {A} (f : Game -> option A) : M A :=
  fun st => match f (this st) with
            | Some a => ret a st
            | None => undefined st
            end.

Definition modify (f : Game -> Game) : M unit :=
  fun st => Some (tt, mkState (f (this st)) (clock st) (ticks st) (trace st)).

(** Field assignments. *)
Definition with_canvas (v : Canvas) (g : Game) : Game :=
  mkGame (Some v) (gameWindow g) (gameTime g) (imageManager g) (obstacleManager g)
         (skier g) (rhino g) (gameState g) (score g) (maxScore g).
Definition with_gameWindow (v : Rect.t) (g : Game) : Game :=
  mkGame (canvas g) (Some v) (gameTime g) (imageManager g) (obstacleManager g)
         (skier g) (rhino g) (gameState g) (score g) (maxScore g).
Definition with_gameTime (v : number) (g : Game) : Game :=
  mkGame (canvas g) (gameWindow g) v (imageManager g) (obstacleManager g)
         (skier g) (rhino g) (gameState g) (score g) (maxScore g).
Definition with_imageManager (v : ImageManager) (g : Game) : Game :=
  mkGame (canvas g) (gameWindow g) (gameTime g) (Some v) (obstacleManager g)
         (skier g) (rhino g) (gameState g) (score g) (maxScore g).
Definition with_obstacleManager (v : ObstacleManager) (g : Game) : Game :=
  mkGame (canvas g) (gameWindow g) (gameTime g) (imageManager g) (Some v)
         (skier g) (rhino g) (gameState g) (score g) (maxScore g).
Definition with_skier (v : Skier) (g : Game) : Game :=
  mkGame (canvas g) (gameWindow g) (gameTime g) (imageManager g) (obstacleManager g)
         (Some v) (rhino g) (gameState g) (score g) (maxScore g).
Definition with_rhino (v : Rhino) (g : Game) : Game :=
  mkGame (canvas g) (gameWindow g) (gameTime g) (imageManager g) (obstacleManager g)
         (skier g) (Some v) (gameState g) (score g) (maxScore g).
Definition with_gameState (v : GameState) (g : Game) : Game :=
  mkGame (canvas g) (gameWindow g) (gameTime g) (imageManager g) (obstacleManager g)
         (skier g) (rhino g) v (score g) (maxScore g).
Definition with_score (v : number) (g : Game) : Game :=
  mkGame (canvas g) (gameWindow g) (gameTime g) (imageManager g) (obstacleManager g)
         (skier g) (rhino g) (gameState g) v (maxScore g).
Definition with_maxScore (v : number) (g : Game) : Game :=
  mkGame (canvas g) (gameWindow g) (gameTime g) (imageManager g) (obstacleManager g)
         (skier g) (rhino g) (gameState g) (score g) v.

(** ** Calls on the platform and on the collaborators *)

(** [Date.now()]: the next reading of the clock. *)
Definition Date_now : M number :=
  fun st =>
    let t := clock st (ticks st) in
    Some (t, mkState (this st) (clock st) (S (ticks st)) (trace st ++ [EDateNow t])).

Definition canvas_clearCanvas : M unit :=
  cv <- deref canvas ;;
  emit EClearCanvas ;;
  modify (with_canvas (clearCanvas cv)).

Definition canvas_setDrawOffset (x y : number) : M unit :=
  cv <- deref canvas ;;
  emit (ESetDrawOffset x y) ;;
  modify (with_canvas (setDrawOffset x y cv)).

Definition canvas_drawText (text : string) (x y : number) (font color : string) : M unit :=
  cv <- deref canvas ;;
  emit (EDrawText text x y font color) ;;
  modify (with_canvas (drawText text x y font color cv)).

Definition imageManager_loadImages (imgs : Images) : M unit :=
  im <- deref imageManager ;;
  emit ELoadImages ;;
  modify (with_imageManager (loadImages imgs im)).

Definition obstacleManager_placeInitialObstacles : M unit :=
  om <- deref obstacleManager ;;
  im <- deref imageManager ;;
  cv <- deref canvas ;;
  emit EPlaceInitialObstacles ;;
  modify (with_obstacleManager (placeInitialObstacles im cv om)).

Definition obstacleManager_placeNewObstacle (gw previous : Rect.t) : M unit :=
  om <- deref obstacleManager ;;
  im <- deref imageManager ;;
  cv <- deref canvas ;;
  emit (EPlaceNewObstacle gw previous) ;;
  modify (with_obstacleManager (placeNewObstacle gw previous im cv om)).

Definition obstacleManager_drawObstacles : M unit :=
  om <- deref obstacleManager ;;
  im <- deref imageManager ;;
  cv <- deref canvas ;;
  emit EDrawObstacles ;;
  modify (with_canvas (drawObstacles om im cv)).

Definition skier_getPosition : M Position.t :=
  s <- deref skier ;;
  emit ESkierGetPosition ;;
  ret (Skier_getPosition s).

(** The property read [this.skier.state]. *)
Definition skier_state : M SkierState :=
  s <- deref skier ;;
  ret (Skier_state s).

Definition skier_update (t : number) : M unit :=
  s <- deref skier ;;
  im <- deref imageManager ;;
  om <- deref obstacleManager ;;
  cv <- deref canvas ;;
  emit (ESkierUpdate t) ;;
  modify (with_skier (Skier_update t im om cv s)).

Definition skier_handleInput (key : string) : M bool :=
  s <- deref skier ;;
  im <- deref imageManager ;;
  om <- deref obstacleManager ;;
  cv <- deref canvas ;;
  emit (ESkierHandleInput key) ;;
  modify (with_skier (fst (Skier_handleInput key im om cv s))) ;;
  ret (snd (Skier_handleInput key im om cv s)).

Definition skier_draw : M unit :=
  s <- deref skier ;;
  im <- deref imageManager ;;
  cv <- deref canvas ;;
  emit ESkierDraw ;;
  modify (with_canvas (Skier_draw s im cv)).

(** [this.rhino.update(gameTime, this.skier)]: the rhino is handed the skier
    and may change it. *)
Definition rhino_update (t : number) : M unit :=
  r <- deref rhino ;;
  s <- deref skier ;;
  im <- deref imageManager ;;
  cv <- deref canvas ;;
  emit (ERhinoUpdate t) ;;
  modify (with_rhino (fst (Rhino_update t s im cv r))) ;;
  modify (with_skier (snd (Rhino_update t s im cv r))).

Definition rhino_draw : M unit :=
  r <- deref rhino ;;
  im <- deref imageManager ;;
  cv <- deref canvas ;;
  emit ERhinoDraw ;;
  modify (with_canvas (Rhino_draw r im cv)).

Definition Canvas_new (id : string) (width height : number) : M Canvas :=
  emit (ENewCanvas id width height) ;;
  ret (new_Canvas id width height).

Definition ImageManager_new : M ImageManager :=
  emit ENewImageManager ;;
  ret new_ImageManager.

Definition ObstacleManager_new : M ObstacleManager :=
  im <- deref imageManager ;;
  cv <- deref canvas ;;
  emit ENewObstacleManager ;;
  ret (new_ObstacleManager im cv).

Definition Skier_new (x y : number) : M Skier :=
  im <- deref imageManager ;;
  om <- deref obstacleManager ;;
  cv <- deref canvas ;;
  emit (ENewSkier x y) ;;
  ret (new_Skier x y im om cv).

Definition Rhino_new (x y : number) : M Rhino :=
  im <- deref imageManager ;;
  cv <- deref canvas ;;
  emit (ENewRhino x y) ;;
  ret (new_Rhino x y im cv).

(** ** The methods of [Game] *)

(** [calculateGameWindow]: the window is centred on the skier. *)
Definition calculateGameWindow : M unit :=
  call m_calculateGameWindow ;;
  skierPosition <- skier_getPosition ;;
  let left := Position.x skierPosition - GAME_WIDTH / 2 in
  let top := Position.y skierPosition - GAME_HEIGHT / 2 in
  modify (with_gameWindow (Rect.new left top (left + GAME_WIDTH) (top + GAME_HEIGHT))).

(** [init]: every object but the image manager is created anew. *)
Definition init : M unit :=
  call m_init ;;
  cv <- Canvas_new GAME_CANVAS GAME_WIDTH GAME_HEIGHT ;;
  modify (with_canvas cv) ;;
  old <- read imageManager ;;
  im <- match old with
        | Some im => ret im
        | None => ImageManager_new
        end ;;
  modify (with_imageManager im) ;;
  om <- ObstacleManager_new ;;
  modify (with_obstacleManager om) ;;
  obstacleManager_placeInitialObstacles ;;
  s <- Skier_new 0 0 ;;
  modify (with_skier s) ;;
  r <- Rhino_new (-500) (-2000) ;;
  modify (with_rhino r) ;;
  calculateGameWindow ;;
  modify (with_gameState RUNNING).

Definition setupInputHandling : M unit :=
  call m_setupInputHandling ;;
  emit (EAddEventListener "keydown").

(** [load]; the promise is awaited by the caller before the first frame. *)
Definition load : M unit :=
  call m_load ;;
  imageManager_loadImages IMAGES.

Definition saveMaxScore : M unit :=
  call m_saveMaxScore ;;
  sc <- read score ;;
  ms <- read maxScore ;;
  modify (with_maxScore (Math_max sc ms)).

Definition updateScore : M unit :=
  call m_updateScore ;;
  sc <- read score ;;
  modify (with_score (sc + (1 # 2))).

Definition resetScore : M unit :=
  call m_resetScore ;;
  modify (with_score 0).

Definition updateGameWindow : M unit :=
  call m_updateGameWindow ;;
  now <- Date_now ;;
  modify (with_gameTime now) ;;
  previousGameWindow <- deref gameWindow ;;
  calculateGameWindow ;;
  gw <- deref gameWindow ;;
  obstacleManager_placeNewObstacle gw previousGameWindow ;;
  t <- read gameTime ;;
  skier_update t ;;
  t' <- read gameTime ;;
  rhino_update t' ;;
  s <- skier_state ;;
  if SkierState_eqb s STATE_DEAD then
    modify (with_gameState GAME_OVER) ;;
    saveMaxScore ;;
    resetScore
  else
    updateScore.

Definition drawScore : M unit :=
  call m_drawScore ;;
  let padding := 30 in
  ms <- read maxScore ;;
  let maxScoreInteger := Math_floor ms in
  sc <- read score ;;
  let scoreInteger := Math_floor sc in
  canvas_drawText
    ("Max Score: " ++ string_of_Z maxScoreInteger ++ "   Score: " ++ string_of_Z scoreInteger)
    (GAME_WIDTH - padding - 270) padding "20px Arial" "black".

Definition drawGameWindow : M unit :=
  call m_drawGameWindow ;;
  gw <- deref gameWindow ;;
  canvas_setDrawOffset (Rect.left gw) (Rect.top gw) ;;
  skier_draw ;;
  rhino_draw ;;
  obstacleManager_drawObstacles ;;
  drawScore.

Definition drawGameOver : M unit :=
  call m_drawGameOver ;;
  canvas_drawText "Game Over!" (GAME_WIDTH / 2 - 100) (GAME_HEIGHT / 2) "30px Roboto" "red" ;;
  canvas_drawText "Press Enter to restart" (GAME_WIDTH / 2 - 110) (GAME_HEIGHT / 2 + 40)
                  "20px Roboto" "green".

(** [run]: one frame.  [requestAnimationFrame] asks the platform for the
    next one; it is the platform that calls [run] again. *)
Definition run : M unit :=
  call m_run ;;
  gs <- read gameState ;;
  (if GameState_eqb gs RUNNING then
     canvas_clearCanvas ;;
     updateGameWindow ;;
     drawGameWindow
   else
     drawGameOver) ;;
  emit ERequestAnimationFrame.

Definition restartGame : M unit :=
  call m_restartGame ;;
  init ;;
  modify (with_gameState RUNNING).

(** [handleKeyDown]; the event is its [key], and [preventDefault] is traced. *)
Definition handleKeyDown (key : string) : M unit :=
  call m_handleKeyDown ;;
  gs <- read gameState ;;
  if GameState_eqb gs GAME_OVER && String.eqb key "Enter" then
    restartGame ;;
    emit EPreventDefault
  else
    handled <- skier_handleInput key ;;
    if handled then emit EPreventDefault else ret tt.

(** The field initialisers, then the constructor's body. *)
Definition constructor : M unit :=
  now <- Date_now ;;
  modify (with_gameTime now) ;;
  modify (with_gameState RUNNING) ;;
  modify (with_score 0) ;;
  modify (with_maxScore 0) ;;
  init ;;
  setupInputHandling.

(** The object before its field initialisers ran. *)
Definition unassigned : Game :=
  mkGame None None 0 None None None None RUNNING 0 0.

Definition execM {A} (m : M A) (st : State) : option State :=
  match m st with
  | Some (_, st') => Some st'
  | None => None
  end.

(** [new Game()] under a given clock. *)
Definition new_Game (clk : nat -> number) : option State :=
  execM constructor (mkState unassigned clk 0 []).

(** ** Sessions *)

(** What reaches the object once it is constructed: the call of [load], a
    display refresh, which calls [run], or a key press, which calls
    [handleKeyDown].  They are handled one at a time, in any order. *)
Inductive Input := Load | Frame | KeyDown (key : string).

Definition step (i : Input) : M unit :=
  match i with
  | Load => load
  | Frame => run
  | KeyDown key => handleKeyDown key
  end.

Fixpoint steps (l : list Input) : M unit :=
  match l with
  | [] => ret tt
  | i :: l' => step i ;; steps l'
  end.

(** [new Game()], then the inputs. *)
Definition session (clk : nat -> number) (l : list Input) : option State :=
  match new_Game clk with
  | Some st => execM (steps l) st
  | None => None
  end.

(** [n] frames in a row. *)
Fixpoint frames (n : nat) : M unit :=
  match n with
  | O => ret tt
  | S n' => run ;; frames n'
  end.

End Controller.

Arguments Game {C}.
Arguments State {C}.

(** ** A sample implementation of the collaborators *)

Module Sample.

(** The canvas remembers its draw offset and what was painted since it was
    last cleared. *)
Record SCanvas := mkCanvas { origin : number * number; painted : list string }.

Inductive SState := STATE_SKIING | STATE_CRASHED | SSTATE_DEAD.

Definition SState_eq_dec (a b : SState) : {a = b} + {a <> b}.
Proof. decide equality. Defined.

Record SSkier := mkSkier { position : Position.t; state : SState }.

(** A skier that skis straight down, ten units a frame. *)
Definition update (s : SSkier) : SSkier :=
  match state s with
  | STATE_SKIING =>
      mkSkier (Position.new (Position.x (position s)) (Position.y (position s) + 10))
              (state s)
  | _ => s
  end.

(** The arrow keys move the skier sideways, whatever its state. *)
Definition handleInput (key : string) (s : SSkier) : SSkier * bool :=
  if String.eqb key "ArrowLeft" then
    (mkSkier (Position.new (Position.x (position s) - 10) (Position.y (position s)))
             (state s), true)
  else if String.eqb key "ArrowRight" then
    (mkSkier (Position.new (Position.x (position s) + 10) (Position.y (position s)))
             (state s), true)
  else (s, false).

(** A rhino that catches the skier as soon as the clock reads 3. *)
Definition rhinoUpdate (t : number) (s : SSkier) (r : Position.t) : Position.t * SSkier :=
  if Qle_bool 3 t then (position s, mkSkier (position s) SSTATE_DEAD) else (r, s).

Definition paint (what : string) (cv : SCanvas) : SCanvas :=
  mkCanvas (origin cv) (painted cv ++ [what]).

(** The obstacle manager counts its obstacles; the image manager remembers
    whether the images were loaded. *)
Definition collaborators : Collaborators := {|
  Canvas := SCanvas;
  ImageManager := bool;
  ObstacleManager := nat;
  Skier := SSkier;
  Rhino := Position.t;
  SkierState := SState;
  Images := list string;
  GAME_CANVAS := "skiCanvas";
  GAME_WIDTH := 1280;
  GAME_HEIGHT := 720;
  IMAGES := ["skierDown"; "rhino"; "tree"];
  new_Canvas := fun _ _ _ => mkCanvas (0, 0) [];
  clearCanvas := fun cv => mkCanvas (origin cv) [];
  setDrawOffset := fun x y cv => mkCanvas (x, y) (painted cv);
  drawText := fun text _ _ _ _ => paint text;
  new_ImageManager := false;
  loadImages := fun _ _ => true;
  new_ObstacleManager := fun _ _ => O;
  placeInitialObstacles := fun _ _ n => (n + 5)%nat;
  placeNewObstacle := fun _ _ _ _ n => S n;
  drawObstacles := fun _ _ => paint "obstacles";
  STATE_DEAD := SSTATE_DEAD;
  SkierState_eq_dec := SState_eq_dec;
  new_Skier := fun x y _ _ _ => mkSkier (Position.new x y) STATE_SKIING;
  Skier_getPosition := position;
  Skier_state := state;
  Skier_update := fun _ _ _ _ => update;
  Skier_handleInput := fun key _ _ _ => handleInput key;
  Skier_draw := fun _ _ => paint "skier";
  new_Rhino := fun x y _ _ => Position.new x y;
  Rhino_update := fun t s _ _ => rhinoUpdate t s;
  Rhino_draw := fun _ _ => paint "rhino"
|}.

(** A clock that reads 0, 1, 2, ... *)
Definition clock (n : nat) : number := inject_Z (Z.of_nat n).

(** The state a session of the sample game ends in. *)
Definition after (l : list Input) : State (C := collaborators) :=
  match session (C := collaborators) clock l with
  | Some st => st
  | None => mkState unassigned clock 0 []
  end.

(** The sample game: the images are loaded, two frames are survived, the
    third reads the clock at 3 and the rhino catches the skier. *)
Definition fresh : State (C := collaborators) := after [Load].
Definition lastRun : State (C := collaborators) := after [Load; Frame; Frame].
Definition over : State (C := collaborators) := after [Load; Frame; Frame; Frame].

(** What a step of the sample game appends to the trace. *)
Definition appended (l : list Input) (i : Input) : list Event :=
  skipn (List.length (trace (after l))) (trace (after (l ++ [i]))).

End Sample.


(** ** Vocabulary of the properties *)

Section Vocabulary.

Context {C : Collaborators}.

(** Every field declared with [!] has been assigned. *)
Definition initialised (g : Game) : bool :=
  match canvas g, gameWindow g, imageManager g, obstacleManager g, skier g, rhino g with
  | Some _, Some _, Some _, Some _, Some _, Some _ => true
  | _, _, _, _, _, _ => false
  end.

(** The test of [updateGameWindow]: [skier.state === STATE_DEAD]. *)
Definition isDead (s : Skier) : bool := SkierState_eqb (Skier_state s) STATE_DEAD.

Definition playerDead (st : State) : bool :=
  match skier (this st) with
  | Some s => isDead s
  | None => false
  end.

(** A rectangle of the display's size centred on [p]. *)
Definition centredOn (p : Position.t) (gw : Rect.t) : Prop :=
  Rect.left gw == Position.x p - GAME_WIDTH / 2 /\
  Rect.top gw == Position.y p - GAME_HEIGHT / 2 /\
  Rect.right gw - Rect.left gw == GAME_WIDTH /\
  Rect.bottom gw - Rect.top gw == GAME_HEIGHT.

(** The text of the score overlay. *)
Definition scoreText (ms sc : number) : string :=
  "Max Score: " ++ string_of_Z (Math_floor ms) ++ "   Score: " ++ string_of_Z (Math_floor sc).

(** What is painted, by whom. *)
Inductive Layer := Obstacles | Player | Pursuer | Overlay.

Definition layer (e : Event) : option Layer :=
  match e with
  | EDrawObstacles => Some Obstacles
  | ESkierDraw => Some Player
  | ERhinoDraw => Some Pursuer
  | EDrawText _ _ _ _ _ => Some Overlay
  | _ => None
  end.

(** The layers painted by a trace, in order. *)
Fixpoint drawOrder (l : list Event) : list Layer :=
  match l with
  | [] => []
  | e :: l' =>
      match layer e with
      | Some y => y :: drawOrder l'
      | None => drawOrder l'
      end
  end.

Definition isDateNow (e : Event) : bool :=
  match e with EDateNow _ => true | _ => false end.

Definition isClear (e : Event) : bool :=
  match e with EClearCanvas => true | _ => false end.

(** The steps of [updateGameWindow] before its test. *)
Definition isUpdateStep (e : Event) : bool :=
  match e with
  | EDateNow _ | ECall m_calculateGameWindow | EPlaceNewObstacle _ _
  | ESkierUpdate _ | ERhinoUpdate _ => true
  | _ => false
  end.

(** The three operations on the score. *)
Definition isScoreCall (e : Event) : bool :=
  match e with
  | ECall m_saveMaxScore | ECall m_resetScore | ECall m_updateScore => true
  | _ => false
  end.

(** A call on a collaborator or the construction of one, as opposed to a
    call on the platform or a method entry of the controller. *)
Definition onCollaborator (e : Event) : bool :=
  match e with
  | ECall _ | EDateNow _ | EAddEventListener _ | EPreventDefault
  | ERequestAnimationFrame => false
  | _ => true
  end.

(** A call on the skier, the rhino or the obstacle manager, or the
    construction of one. *)
Definition onEntity (e : Event) : bool :=
  match e with
  | ENewObstacleManager | EPlaceInitialObstacles | EPlaceNewObstacle _ _ | EDrawObstacles
  | ENewSkier _ _ | ESkierGetPosition | ESkierUpdate _ | ESkierHandleInput _ | ESkierDraw
  | ENewRhino _ _ | ERhinoUpdate _ | ERhinoDraw => true
  | _ => false
  end.

(** The events of [updateGameWindow] in a frame that read the clock at [now],
    moved the window from [gw] to [gw'] and found the skier dead or not. *)
Definition updateEvents (now : number) (gw' gw : Rect.t) (dead : bool) : list Event :=
  [ECall m_updateGameWindow; EDateNow now;
   ECall m_calculateGameWindow; ESkierGetPosition;
   EPlaceNewObstacle gw' gw;
   ESkierUpdate now; ERhinoUpdate now]
  ++ (if dead then [ECall m_saveMaxScore; ECall m_resetScore] else [ECall m_updateScore]).

(** The events of [drawGameWindow]. *)
Definition drawEvents (gw' : Rect.t) (ms sc : number) : list Event :=
  [ECall m_drawGameWindow; ESetDrawOffset (Rect.left gw') (Rect.top gw');
   ESkierDraw; ERhinoDraw; EDrawObstacles;
   ECall m_drawScore;
   EDrawText (scoreText ms sc) (GAME_WIDTH - 30 - 270) 30 "20px Arial" "black"].

(** The events of [drawGameOver]. *)
Definition gameOverEvents : list Event :=
  [ECall m_drawGameOver;
   EDrawText "Game Over!" (GAME_WIDTH / 2 - 100) (GAME_HEIGHT / 2) "30px Roboto" "red";
   EDrawText "Press Enter to restart" (GAME_WIDTH / 2 - 110) (GAME_HEIGHT / 2 + 40)
             "20px Roboto" "green"].

(** The events of [init], which creates the image manager only when there is
    none yet. *)
Definition initEvents (hadImages : bool) : list Event :=
  [ECall m_init; ENewCanvas GAME_CANVAS GAME_WIDTH GAME_HEIGHT]
  ++ (if hadImages then [] else [ENewImageManager])
  ++ [ENewObstacleManager; EPlaceInitialObstacles;
      ENewSkier 0 0; ENewRhino (-500) (-2000);
      ECall m_calculateGameWindow; ESkierGetPosition].

(** The objects [init] creates around the image manager [im]. *)
Definition initCanvas : Canvas := new_Canvas GAME_CANVAS GAME_WIDTH GAME_HEIGHT.

Definition initObstacles (im : ImageManager) : ObstacleManager :=
  placeInitialObstacles im initCanvas (new_ObstacleManager im initCanvas).

Definition initSkier (im : ImageManager) : Skier :=
  new_Skier 0 0 im (initObstacles im) initCanvas.

Definition initRhino (im : ImageManager) : Rhino :=
  new_Rhino (-500) (-2000) im initCanvas.

(** The operations on the score and the state that the controller offers. *)
Inductive Operation :=
| OpFrame | OpKey (key : string) | OpRestart | OpInit | OpLoad
| OpUpdateGameWindow | OpUpdateScore | OpSaveMaxScore | OpResetScore
| OpDrawGameWindow | OpDrawGameOver | OpDrawScore | OpCalculateGameWindow.

Definition perform (o : Operation) : M unit :=
  match o with
  | OpFrame => run
  | OpKey key => handleKeyDown key
  | OpRestart => restartGame
  | OpInit => init
  | OpLoad => load
  | OpUpdateGameWindow => updateGameWindow
  | OpUpdateScore => updateScore
  | OpSaveMaxScore => saveMaxScore
  | OpResetScore => resetScore
  | OpDrawGameWindow => drawGameWindow
  | OpDrawGameOver => drawGameOver
  | OpDrawScore => drawScore
  | OpCalculateGameWindow => calculateGameWindow
  end.

(** What holds between inputs once the object is constructed. *)
Definition Inv (st : State) : Prop :=
  initialised (this st) = true /\
  0 <= maxScore (this st) /\
  0 <= score (this st) /\
  (gameState (this st) = GAME_OVER -> score (this st) = 0).

(** The best score seen so far, counting the run in progress. *)
Definition best (st : State) : number := Qmax (maxScore (this st)) (score (this st)).

(** Whatever [m] returns, it leaves maxScore at least as high as it was. *)
Definition keepsMax {A} (m : M A) : Prop :=
  forall st a st', m st = Some (a, st') -> maxScore (this st) <= maxScore (this st').

End Vocabulary.

(** ** Vocabulary of the further properties *)

Section Observations.

Context {C : Collaborators}.

Definition isNewImageManager (e : Event) : bool :=
  match e with ENewImageManager => true | _ => false end.

Definition isAddEventListener (e : Event) : bool :=
  match e with EAddEventListener _ => true | _ => false end.

Definition isRunEntry (e : Event) : bool :=
  match e with ECall m_run => true | _ => false end.

Definition isRequest (e : Event) : bool :=
  match e with ERequestAnimationFrame => true | _ => false end.

Definition isPreventDefault (e : Event) : bool :=
  match e with EPreventDefault => true | _ => false end.

Definition isHandleInput (e : Event) : bool :=
  match e with ESkierHandleInput _ => true | _ => false end.

Definition isInit (e : Event) : bool :=
  match e with ECall m_init => true | _ => false end.

Definition isDrawText (e : Event) : bool :=
  match e with EDrawText _ _ _ _ _ => true | _ => false end.

Definition isSetDrawOffset (e : Event) : bool :=
  match e with ESetDrawOffset _ _ => true | _ => false end.

Definition isFrame (i : Input) : bool :=
  match i with Frame => true | _ => false end.

(** The guard of [handleKeyDown]: the key restarts the game. *)
Definition restarts (gs : GameState) (key : string) : bool :=
  GameState_eqb gs GAME_OVER && String.eqb key "Enter".

Definition isRestart (gs : GameState) (i : Input) : bool :=
  match i with
  | KeyDown key => restarts gs key
  | _ => false
  end.


(** [n] times the increment of [updateScore]. *)
Definition halves (n : nat) : number := inject_Z (Z.of_nat n) * (1 # 2).

End Observations.

(** A clock for the sample game that starts over after four readings, so
    that the sample rhino, which goes by the clock, lets a second run
    begin. *)
Definition stopwatch (n : nat) : number := inject_Z (Z.of_nat (n mod 4)).

(** The state a session of the sample game ends in under a given clock. *)
Definition sampleAfter (clk : nat -> number) (l : list Input)
  : State (C := Sample.collaborators) :=
  match session (C := Sample.collaborators) clk l with
  | Some st => st
  | None => mkState unassigned clk 0 []
  end.

(** A canvas and an object of the sample game with a score of three halves
    and a maxScore of two. *)
Definition blankCanvas : Canvas (Collaborators := Sample.collaborators) :=
  Sample.mkCanvas (0, 0) [].

Definition threeHalves : State (C := Sample.collaborators) :=
  mkState (mkGame (Some blankCanvas) None 0 None None None None RUNNING (3 # 2) (4 # 2))
          Sample.clock 1 [].

(** The sample game with a skier whose dead state is terminal: once dead it
    ignores the keys. *)
Module Terminal.

Definition handleInput (key : string) (s : Sample.SSkier) : Sample.SSkier * bool :=
  match Sample.state s with
  | Sample.SSTATE_DEAD => (s, false)
  | _ => Sample.handleInput key s
  end.

Definition collaborators : Collaborators := {|
  Canvas := Sample.SCanvas;
  ImageManager := bool;
  ObstacleManager := nat;
  Skier := Sample.SSkier;
  Rhino := Position.t;
  SkierState := Sample.SState;
  Images := list string;
  GAME_CANVAS := "skiCanvas";
  GAME_WIDTH := 1280;
  GAME_HEIGHT := 720;
  IMAGES := ["skierDown"; "rhino"; "tree"]%string;
  new_Canvas := fun _ _ _ => Sample.mkCanvas (0, 0) [];
  clearCanvas := fun cv => Sample.mkCanvas (Sample.origin cv) [];
  setDrawOffset := fun x y cv => Sample.mkCanvas (x, y) (Sample.painted cv);
  drawText := fun text _ _ _ _ => Sample.paint text;
  new_ImageManager := false;
  loadImages := fun _ _ => true;
  new_ObstacleManager := fun _ _ => O;
  placeInitialObstacles := fun _ _ n => (n + 5)%nat;
  placeNewObstacle := fun _ _ _ _ n => S n;
  drawObstacles := fun _ _ => Sample.paint "obstacles";
  STATE_DEAD := Sample.SSTATE_DEAD;
  SkierState_eq_dec := Sample.SState_eq_dec;
  new_Skier := fun x y _ _ _ => Sample.mkSkier (Position.new x y) Sample.STATE_SKIING;
  Skier_getPosition := Sample.position;
  Skier_state := Sample.state;
  Skier_update := fun _ _ _ _ => Sample.update;
  Skier_handleInput := fun key _ _ _ => handleInput key;
  Skier_draw := fun _ _ => Sample.paint "skier";
  new_Rhino := fun x y _ _ => Position.new x y;
  Rhino_update := fun t s _ _ => Sample.rhinoUpdate t s;
  Rhino_draw := fun _ _ => Sample.paint "rhino"
|}.

Definition after (l : list Input) : State (C := collaborators) :=
  match session (C := collaborators) Sample.clock l with
  | Some st => st
  | None => mkState unassigned Sample.clock 0 []
  end.

(** The game is over after the third frame, as in the sample game. *)
Definition over : State (C := collaborators) := after [Load; Frame; Frame; Frame].

End Terminal.

(** * Properties *)

Local Open Scope list_scope.

Ltac exec :=
  cbv [run updateGameWindow drawGameWindow drawGameOver drawScore calculateGameWindow
       saveMaxScore updateScore resetScore handleKeyDown restartGame init
       setupInputHandling load constructor
       bind ret emit call read deref modify undefined Date_now
       canvas_clearCanvas canvas_setDrawOffset canvas_drawText imageManager_loadImages
       obstacleManager_placeInitialObstacles obstacleManager_placeNewObstacle
       obstacleManager_drawObstacles skier_getPosition skier_state skier_update
       skier_handleInput skier_draw rhino_update rhino_draw
       Canvas_new ImageManager_new ObstacleManager_new Skier_new Rhino_new
       with_canvas with_gameWindow with_gameTime with_imageManager with_obstacleManager
       with_skier with_rhino with_gameState with_score with_maxScore
       this clock ticks trace canvas gameWindow gameTime imageManager obstacleManager
       skier rhino gameState score maxScore GameState_eqb].

Ltac tidy := rewrite <- ?app_assoc; cbn [app].

(** Linear arithmetic over [Q] with [Qmax]: every maximum is named and
    replaced by its two cases. *)
Ltac qmax :=
  unfold Math_max in *;
  repeat match goal with
         | |- context [Qmax ?a ?b] =>
             let z := fresh "z" in
             pose proof (Q.max_spec a b); set (z := Qmax a b) in *; clearbody z
         | H : context [Qmax ?a ?b] |- _ =>
             let z := fresh "z" in
             pose proof (Q.max_spec a b); set (z := Qmax a b) in *; clearbody z
         end;
  lra.

Section Frames.

Context {C : Collaborators}.

Lemma initialised_inv (g : Game) :
  initialised g = true ->
  exists cv gw im om s r,
    g = mkGame (Some cv) (Some gw) (gameTime g) (Some im) (Some om) (Some s) (Some r)
               (gameState g) (score g) (maxScore g).
Proof.
  destruct g as [[cv|] [gw|] gt [im|] [om|] [s|] [r|] gs sc ms];
    cbn; intro H; try discriminate H.
  now exists cv, gw, im, om, s, r.
Qed.

(** A frame in state RUNNING, in full. *)
Lemma run_running cv gw gt im om s r sc ms clk tk tr :
  let now := clk tk in
  let cv1 := clearCanvas cv in
  let p := Skier_getPosition s in
  let left := Position.x p - GAME_WIDTH / 2 in
  let top := Position.y p - GAME_HEIGHT / 2 in
  let gw' := Rect.new left top (left + GAME_WIDTH) (top + GAME_HEIGHT) in
  let om' := placeNewObstacle gw' gw im cv1 om in
  let s1 := Skier_update now im om' cv1 s in
  let r' := fst (Rhino_update now s1 im cv1 r) in
  let s' := snd (Rhino_update now s1 im cv1 r) in
  let dead := isDead s' in
  let sc' := if dead then 0 else sc + (1 # 2) in
  let ms' := if dead then Math_max sc ms else ms in
  let cv' :=
    drawText (scoreText ms' sc') (GAME_WIDTH - 30 - 270) 30 "20px Arial" "black"
      (drawObstacles om' im
         (Rhino_draw r' im (Skier_draw s' im (setDrawOffset left top cv1)))) in
  run (mkState (mkGame (Some cv) (Some gw) gt (Some im) (Some om) (Some s) (Some r)
                       RUNNING sc ms) clk tk tr)
  = Some (tt,
          mkState (mkGame (Some cv') (Some gw') now (Some im) (Some om') (Some s') (Some r')
                          (if dead then GAME_OVER else RUNNING) sc' ms')
                  clk (S tk)
                  (tr ++ [ECall m_run; EClearCanvas] ++ updateEvents now gw' gw dead
                      ++ drawEvents gw' ms' sc' ++ [ERequestAnimationFrame])).
Proof.
  intros. subst dead sc' ms' cv' s' r' s1 om' gw' left top p cv1 now.
  unfold isDead, updateEvents, drawEvents, scoreText. exec.
  match goal with
  | |- context [SkierState_eqb ?a ?b] => destruct (SkierState_eqb a b)
  end; tidy; reflexivity.
Qed.

(** A frame in state GAME_OVER, in full: only the canvas is needed. *)
Lemma run_game_over cv gw gt im om s r sc ms clk tk tr :
  let cv' :=
    drawText "Press Enter to restart" (GAME_WIDTH / 2 - 110) (GAME_HEIGHT / 2 + 40)
             "20px Roboto" "green"
      (drawText "Game Over!" (GAME_WIDTH / 2 - 100) (GAME_HEIGHT / 2) "30px Roboto" "red" cv) in
  run (mkState (mkGame (Some cv) gw gt im om s r GAME_OVER sc ms) clk tk tr)
  = Some (tt,
          mkState (mkGame (Some cv') gw gt im om s r GAME_OVER sc ms) clk tk
                  (tr ++ [ECall m_run] ++ gameOverEvents ++ [ERequestAnimationFrame])).
Proof.
  intros. subst cv'. unfold gameOverEvents. exec. tidy. reflexivity.
Qed.

(** [init], in full, from any state of the object. *)
Lemma init_full cv0 gw0 gt im0 om0 s0 r0 gs sc ms clk tk tr :
  let im := match im0 with Some im => im | None => new_ImageManager end in
  let p := Skier_getPosition (initSkier im) in
  let left := Position.x p - GAME_WIDTH / 2 in
  let top := Position.y p - GAME_HEIGHT / 2 in
  let gw := Rect.new left top (left + GAME_WIDTH) (top + GAME_HEIGHT) in
  init (mkState (mkGame cv0 gw0 gt im0 om0 s0 r0 gs sc ms) clk tk tr)
  = Some (tt,
          mkState (mkGame (Some initCanvas) (Some gw) gt (Some im) (Some (initObstacles im))
                          (Some (initSkier im)) (Some (initRhino im)) RUNNING sc ms)
                  clk tk
                  (tr ++ initEvents (match im0 with Some _ => true | None => false end))).
Proof.
  intros. subst gw left top p im.
  unfold initEvents, initSkier, initRhino, initObstacles, initCanvas. exec.
  destruct im0; exec; tidy; reflexivity.
Qed.

(** Enter in state GAME_OVER restarts the game. *)
Lemma handleKeyDown_restart cv0 gw0 gt im om0 s0 r0 sc ms clk tk tr :
  let p := Skier_getPosition (initSkier im) in
  let left := Position.x p - GAME_WIDTH / 2 in
  let top := Position.y p - GAME_HEIGHT / 2 in
  let gw := Rect.new left top (left + GAME_WIDTH) (top + GAME_HEIGHT) in
  handleKeyDown "Enter"
    (mkState (mkGame cv0 gw0 gt (Some im) om0 s0 r0 GAME_OVER sc ms) clk tk tr)
  = Some (tt,
          mkState (mkGame (Some initCanvas) (Some gw) gt (Some im) (Some (initObstacles im))
                          (Some (initSkier im)) (Some (initRhino im)) RUNNING sc ms)
                  clk tk
                  (tr ++ [ECall m_handleKeyDown; ECall m_restartGame] ++ initEvents true
                      ++ [EPreventDefault])).
Proof.
  intros. subst gw left top p.
  unfold initEvents, initSkier, initRhino, initObstacles, initCanvas. exec. cbn.
  tidy. reflexivity.
Qed.

(** Any other key event goes to the skier. *)
Lemma handleKeyDown_forward key cv gw gt im om s r gs sc ms clk tk tr :
  GameState_eqb gs GAME_OVER && String.eqb key "Enter" = false ->
  let s' := fst (Skier_handleInput key im om cv s) in
  let handled := snd (Skier_handleInput key im om cv s) in
  handleKeyDown key
    (mkState (mkGame (Some cv) gw gt (Some im) (Some om) (Some s) r gs sc ms) clk tk tr)
  = Some (tt,
          mkState (mkGame (Some cv) gw gt (Some im) (Some om) (Some s') r gs sc ms) clk tk
                  (tr ++ [ECall m_handleKeyDown; ESkierHandleInput key]
                      ++ (if handled then [EPreventDefault] else []))).
Proof.
  intros H s' handled. subst s' handled.
  cbv [handleKeyDown bind call emit read this gameState].
  rewrite H. exec.
  destruct (snd (Skier_handleInput key im om cv s)); tidy; try rewrite app_nil_r; reflexivity.
Qed.

(** [load], in full. *)
Lemma load_full cv gw gt im om s r gs sc ms clk tk tr :
  load (mkState (mkGame cv gw gt (Some im) om s r gs sc ms) clk tk tr)
  = Some (tt,
          mkState (mkGame cv gw gt (Some (loadImages IMAGES im)) om s r gs sc ms) clk tk
                  (tr ++ [ECall m_load; ELoadImages])).
Proof. exec. tidy. reflexivity. Qed.

(** [new Game()], in full. *)
Lemma new_Game_full clk :
  let im := new_ImageManager in
  let p := Skier_getPosition (initSkier im) in
  let left := Position.x p - GAME_WIDTH / 2 in
  let top := Position.y p - GAME_HEIGHT / 2 in
  let gw := Rect.new left top (left + GAME_WIDTH) (top + GAME_HEIGHT) in
  new_Game clk
  = Some (mkState (mkGame (Some initCanvas) (Some gw) (clk O) (Some im)
                          (Some (initObstacles im)) (Some (initSkier im))
                          (Some (initRhino im)) RUNNING 0 0)
                  clk 1%nat
                  ([EDateNow (clk O)] ++ initEvents false
                     ++ [ECall m_setupInputHandling; EAddEventListener "keydown"])).
Proof.
  intros. subst gw left top p im.
  unfold new_Game, execM, unassigned, initEvents, initSkier, initRhino, initObstacles,
    initCanvas.
  exec. reflexivity.
Qed.

End Frames.

(** ** The invariant of a session *)

Section Sessions.

Context {C : Collaborators}.

Lemma step_Inv (i : Input) (st : State) :
  Inv st ->
  exists st',
    step i st = Some (tt, st') /\ Inv st' /\
    clock st' = clock st /\
    maxScore (this st) <= maxScore (this st') /\
    best st <= best st'.
Proof.
  intros (Hi & Hm & Hs & Hg).
  destruct st as [g clk tk tr].
  destruct (initialised_inv g Hi) as (cv & gw & im & om & s & r & ->).
  cbn [this gameState score maxScore] in *. unfold best. cbn [this score maxScore].
  set (gs := gameState g) in *. set (sc := score g) in *. set (ms := maxScore g) in *.
  destruct i as [| |key]; cbn [step].
  - rewrite load_full.
    eexists; (split; [reflexivity|]).
    unfold Inv; cbn [this clock gameState score maxScore initialised canvas gameWindow
                     imageManager obstacleManager skier rhino].
    repeat split; try easy; apply Qle_refl.
  - destruct gs.
    + rewrite run_running. cbv zeta.
      match goal with |- context [isDead ?a] => destruct (isDead a) end;
        eexists; (split; [reflexivity|]); cbn [this clock gameState score maxScore];
        unfold Inv; cbn [this clock gameState score maxScore initialised canvas gameWindow
                         imageManager obstacleManager skier rhino]; unfold Math_max.
      * repeat split; try easy; qmax.
      * repeat split; try easy; qmax.
    + rewrite run_game_over. cbv zeta.
      eexists; (split; [reflexivity|]).
      unfold Inv; cbn [this clock gameState score maxScore initialised canvas gameWindow
                       imageManager obstacleManager skier rhino].
      repeat split; try easy; apply Qle_refl.
  - destruct (GameState_eqb gs GAME_OVER && String.eqb key "Enter") eqn:E.
    + apply andb_true_iff in E as [Eg Ek].
      apply String.eqb_eq in Ek. subst key.
      destruct gs; [discriminate Eg|].
      rewrite handleKeyDown_restart. cbv zeta.
      eexists; (split; [reflexivity|]).
      unfold Inv; cbn [this clock gameState score maxScore initialised canvas gameWindow
                       imageManager obstacleManager skier rhino].
      repeat split; try easy; apply Qle_refl.
    + rewrite (handleKeyDown_forward _ _ _ _ _ _ _ _ _ _ _ _ _ _ E). cbv zeta.
      eexists; (split; [reflexivity|]).
      unfold Inv; cbn [this clock gameState score maxScore initialised canvas gameWindow
                       imageManager obstacleManager skier rhino].
      repeat split; try easy; apply Qle_refl.
Qed.

Lemma steps_Inv (l : list Input) (st : State) :
  Inv st ->
  exists st',
    steps l st = Some (tt, st') /\ Inv st' /\
    clock st' = clock st /\
    maxScore (this st) <= maxScore (this st') /\
    best st <= best st'.
Proof.
  revert st. induction l as [|i l IH]; intros st H.
  - exists st. split; [reflexivity|]. split; [assumption|].
    split; [reflexivity|]. split; apply Qle_refl.
  - destruct (step_Inv i st H) as (st1 & E1 & H1 & Hc1 & Hm1 & Hb1).
    destruct (IH st1 H1) as (st2 & E2 & H2 & Hc2 & Hm2 & Hb2).
    exists st2. cbn [steps]. unfold bind. rewrite E1.
    split; [assumption|]. split; [assumption|]. split; [congruence|].
    split; eapply Qle_trans; eassumption.
Qed.

Lemma steps_app (l1 l2 : list Input) (st : State) :
  steps (l1 ++ l2) st = bind (steps l1) (fun _ => steps l2) st.
Proof.
  revert st. induction l1 as [|i l1 IH]; intro st.
  - reflexivity.
  - cbn [app steps]. unfold bind in *.
    destruct (step i st) as [[[] st1]|]; [|reflexivity].
    apply IH.
Qed.

(** The state in which the inputs start. *)
Lemma started_Inv (clk : nat -> number) :
  exists st0,
    session clk [] = Some st0 /\ Inv st0 /\
    (forall l, session clk l = execM (steps l) st0) /\
    score (this st0) = 0 /\ maxScore (this st0) = 0 /\ gameState (this st0) = RUNNING.
Proof.
  unfold session. rewrite new_Game_full. cbv zeta.
  eexists. split; [reflexivity|].
  split; [|split; [|now repeat split]].
  - unfold Inv. cbn. repeat split; easy.
  - intro l. reflexivity.
Qed.

(** Every session runs to the end, and ends in a state of the invariant. *)
Lemma session_Inv (clk : nat -> number) (l : list Input) :
  exists st, session clk l = Some st /\ Inv st.
Proof.
  destruct (started_Inv clk) as (st0 & _ & H0 & E & _).
  destruct (steps_Inv l st0 H0) as (st & Es & H & _).
  exists st. rewrite E. unfold execM. rewrite Es. easy.
Qed.

(** A session continues from where its prefix stopped. *)
Lemma session_app (clk : nat -> number) (l1 l2 : list Input) (st1 : State) :
  session clk l1 = Some st1 ->
  session clk (l1 ++ l2) = execM (steps l2) st1.
Proof.
  destruct (started_Inv clk) as (st0 & _ & _ & E & _).
  rewrite !E. unfold execM. rewrite steps_app. unfold bind.
  destruct (steps l1 st0) as [[[] st]|]; [|discriminate].
  now intros [= ->].
Qed.

End Sessions.

(** ** Computations that never lower maxScore *)

Section MaxScore.

Context {C : Collaborators}.

Lemma keepsMax_ret {A} (a : A) : keepsMax (ret a).
Proof. intros st a' st' H. inversion H; subst. apply Qle_refl. Qed.

Lemma keepsMax_bind {A B} (m : M A) (k : A -> M B) :
  keepsMax m -> (forall a, keepsMax (k a)) -> keepsMax (bind m k).
Proof.
  intros Hm Hk st b st'. unfold bind.
  destruct (m st) as [[a st1]|] eqn:E; [|discriminate].
  intro Ek. eapply Qle_trans; [eapply Hm|eapply Hk]; eassumption.
Qed.

Lemma keepsMax_emit (e : Event) : keepsMax (emit e).
Proof. intros st a st' H. inversion H; subst. apply Qle_refl. Qed.

Lemma keepsMax_read {A} (f : Game -> A) : keepsMax (read f).
Proof. intros st a st' H. inversion H; subst. apply Qle_refl. Qed.

Lemma keepsMax_deref {A} (f : Game -> option A) : keepsMax (deref f).
Proof.
  intros st a st'. unfold deref, ret, undefined.
  destruct (f (this st)); [|discriminate]. intro H. inversion H; subst. apply Qle_refl.
Qed.

Lemma keepsMax_Date_now : keepsMax Date_now.
Proof. intros st a st' H. inversion H; subst. apply Qle_refl. Qed.

Lemma keepsMax_modify (f : Game -> Game) :
  (forall g, maxScore g <= maxScore (f g)) -> keepsMax (modify f).
Proof. intros Hf st a st' H. inversion H; subst. apply Hf. Qed.

Create HintDb keeps discriminated.

Ltac keeps :=
  repeat first
    [ solve [auto 1 with keeps nocore]
    | apply keepsMax_bind; [|intros]
    | apply keepsMax_ret
    | apply keepsMax_emit
    | apply keepsMax_read
    | apply keepsMax_deref
    | apply keepsMax_Date_now
    | apply keepsMax_modify; intros []; cbn; solve [apply Qle_refl | apply Q.le_max_r]
    | match goal with
      | |- keepsMax (match ?x with _ => _ end) => destruct x
      end ].

Lemma keepsMax_calculateGameWindow : keepsMax calculateGameWindow.
Proof.
  unfold calculateGameWindow, call, skier_getPosition. keeps.
Qed.
#[local] Hint Resolve keepsMax_calculateGameWindow : keeps.

Lemma keepsMax_init : keepsMax init.
Proof.
  unfold init, call, Canvas_new, ImageManager_new, ObstacleManager_new, Skier_new, Rhino_new,
    obstacleManager_placeInitialObstacles.
  keeps.
Qed.
#[local] Hint Resolve keepsMax_init : keeps.

Lemma keepsMax_drawScore : keepsMax drawScore.
Proof. unfold drawScore, call, canvas_drawText. keeps. Qed.
#[local] Hint Resolve keepsMax_drawScore : keeps.

Lemma keepsMax_drawGameWindow : keepsMax drawGameWindow.
Proof.
  unfold drawGameWindow, call, canvas_setDrawOffset, skier_draw, rhino_draw,
    obstacleManager_drawObstacles.
  keeps.
Qed.
#[local] Hint Resolve keepsMax_drawGameWindow : keeps.

Lemma keepsMax_drawGameOver : keepsMax drawGameOver.
Proof. unfold drawGameOver, call, canvas_drawText. keeps. Qed.
#[local] Hint Resolve keepsMax_drawGameOver : keeps.

Lemma keepsMax_saveMaxScore : keepsMax saveMaxScore.
Proof.
  intros st a st' H. cbv [saveMaxScore bind call emit read modify this] in H.
  inversion H; subst. cbn. apply Q.le_max_r.
Qed.
#[local] Hint Resolve keepsMax_saveMaxScore : keeps.

Lemma keepsMax_updateScore : keepsMax updateScore.
Proof. unfold updateScore, call. keeps. Qed.
#[local] Hint Resolve keepsMax_updateScore : keeps.

Lemma keepsMax_resetScore : keepsMax resetScore.
Proof. unfold resetScore, call. keeps. Qed.
#[local] Hint Resolve keepsMax_resetScore : keeps.

Lemma keepsMax_updateGameWindow : keepsMax updateGameWindow.
Proof.
  unfold updateGameWindow, call, obstacleManager_placeNewObstacle, skier_update,
    rhino_update, skier_state.
  keeps.
Qed.
#[local] Hint Resolve keepsMax_updateGameWindow : keeps.

Lemma keepsMax_run : keepsMax run.
Proof.
  unfold run, call, canvas_clearCanvas.
  keeps.
Qed.
#[local] Hint Resolve keepsMax_run : keeps.

Lemma keepsMax_restartGame : keepsMax restartGame.
Proof. unfold restartGame, call. keeps. Qed.
#[local] Hint Resolve keepsMax_restartGame : keeps.

Lemma keepsMax_handleKeyDown (key : string) : keepsMax (handleKeyDown key).
Proof.
  unfold handleKeyDown, call, skier_handleInput.
  keeps.
Qed.
#[local] Hint Resolve keepsMax_handleKeyDown : keeps.

Lemma keepsMax_load : keepsMax load.
Proof. unfold load, call, imageManager_loadImages. keeps. Qed.
#[local] Hint Resolve keepsMax_load : keeps.

Lemma keepsMax_perform (o : Operation) : keepsMax (perform o).
Proof.
  destruct o; cbn [perform];
    auto using keepsMax_run, keepsMax_handleKeyDown, keepsMax_restartGame, keepsMax_init,
      keepsMax_load, keepsMax_updateGameWindow, keepsMax_updateScore, keepsMax_saveMaxScore,
      keepsMax_resetScore, keepsMax_drawGameWindow, keepsMax_drawGameOver,
      keepsMax_drawScore, keepsMax_calculateGameWindow.
Qed.

End MaxScore.

(** * The claims *)

Section Claims.

Context {C : Collaborators}.

(** C1, amended.  In a frame that starts in state RUNNING the canvas is
    cleared and the entities and the score are updated, without anything
    being painted and without the draw offset being set.  Then the calls on
    the collaborators are, in this order and nothing else: the draw offset
    is set to the corner of the new window, the player is drawn, the pursuer
    is drawn, the obstacle field is drawn, and the score overlay is drawn
    with the scores as updated. *)
Theorem C1_draw_order (st : State) :
  initialised (this st) = true ->
  gameState (this st) = RUNNING ->
  exists st' now upd drw gw',
    run st = Some (tt, st') /\
    trace st' = trace st ++ [ECall m_run; EClearCanvas] ++ upd ++ drw
                         ++ [ERequestAnimationFrame] /\
    In (ESkierUpdate now) upd /\ In (ERhinoUpdate now) upd /\
    (In (ECall m_updateScore) upd \/ In (ECall m_resetScore) upd) /\
    drawOrder upd = [] /\
    filter isSetDrawOffset upd = [] /\
    gameWindow (this st') = Some gw' /\
    filter onCollaborator drw =
      [ESetDrawOffset (Rect.left gw') (Rect.top gw');
       ESkierDraw; ERhinoDraw; EDrawObstacles;
       EDrawText (scoreText (maxScore (this st')) (score (this st')))
                 (GAME_WIDTH - 30 - 270) 30 "20px Arial" "black"] /\
    drawOrder drw = [Player; Pursuer; Obstacles; Overlay].
Proof.
  intros Hi Hg. destruct st as [g clk tk tr].
  destruct (initialised_inv g Hi) as (cv & gw & im & om & s & r & E).
  cbn [this] in *. rewrite E, Hg, run_running. cbv zeta.
  eexists. exists (clk tk). eexists. eexists. eexists.
  split; [reflexivity|]. split; [reflexivity|].
  cbn [this gameWindow score maxScore].
  unfold updateEvents, drawEvents.
  match goal with |- context [isDead ?a] => destruct (isDead a) end; cbn;
    repeat split; auto 20.
Qed.

(** C2, amended.  [calculateGameWindow] sets the window to the rectangle
    with left = x - W/2, top = y - H/2, right = left + W and
    bottom = top + H, where (x, y) is the skier's position, and every frame
    that starts in state RUNNING leaves the window so computed from the
    position the skier had when the frame began; on binary64 numbers the
    four fields are these same expressions, each operation rounded.  In
    exact arithmetic the rectangle is W wide and H high; on binary64
    numbers it is so for a skier at the origin of a 1280 by 720 display. *)
Theorem C2_viewport (st : State) (s : Skier) :
  skier (this st) = Some s ->
  let x := Position.x (Skier_getPosition s) in
  let y := Position.y (Skier_getPosition s) in
  let left := x - GAME_WIDTH / 2 in
  let top := y - GAME_HEIGHT / 2 in
  (exists st',
      calculateGameWindow st = Some (tt, st') /\
      gameWindow (this st') =
        Some (Rect.new left top (left + GAME_WIDTH) (top + GAME_HEIGHT))) /\
  (initialised (this st) = true ->
   gameState (this st) = RUNNING ->
   exists st',
      run st = Some (tt, st') /\
      gameWindow (this st') =
        Some (Rect.new left top (left + GAME_WIDTH) (top + GAME_HEIGHT))) /\
  (forall a b w h : float,
      Binary64.calculateGameWindow a b w h =
        Binary64.new (a - w / 2)%float (b - h / 2)%float
                     ((a - w / 2) + w)%float ((b - h / 2) + h)%float) /\
  (left + GAME_WIDTH - left == GAME_WIDTH /\ top + GAME_HEIGHT - top == GAME_HEIGHT) /\
  (Binary64.same
     (Binary64.right (Binary64.calculateGameWindow 0 0 1280 720)
      - Binary64.left (Binary64.calculateGameWindow 0 0 1280 720))%float 1280%float
   = true /\
   Binary64.same
     (Binary64.bottom (Binary64.calculateGameWindow 0 0 1280 720)
      - Binary64.top (Binary64.calculateGameWindow 0 0 1280 720))%float 720%float
   = true).
Proof.
  intros Hs x y left top. subst left top x y. split; [|split; [|split; [|split]]].
  - destruct st as [g clk tk tr]. cbn [this] in Hs.
    exec. cbv [skier] in Hs. destruct g. subst.
    eexists. split; reflexivity.
  - intros Hi Hg. destruct st as [g clk tk tr].
    destruct (initialised_inv g Hi) as (cv & gw & im & om & s0 & r & E).
    cbn [this] in *. rewrite E in Hs. cbn [skier] in Hs. injection Hs as ->.
    rewrite E, Hg, run_running. cbv zeta.
    eexists. split; reflexivity.
  - intros a b w h. reflexivity.
  - split; ring.
  - split; vm_compute; reflexivity.
Qed.

(** C3.  A frame that starts in state RUNNING moves to GAME_OVER exactly when
    the player is dead once the frame's updates are done (nothing after the
    test changes the player, so that is the player the frame ends with).  In
    that frame maxScore becomes the larger of score and maxScore, read before
    score is cleared, score becomes 0, and the operations on the score are
    saveMaxScore then resetScore and nothing else: updateScore is not
    called. *)
Theorem C3_death_transition (st : State) :
  initialised (this st) = true ->
  gameState (this st) = RUNNING ->
  exists st' evs,
    run st = Some (tt, st') /\
    trace st' = trace st ++ evs /\
    (gameState (this st') = GAME_OVER <-> playerDead st' = true) /\
    (playerDead st' = true ->
     maxScore (this st') = Math_max (score (this st)) (maxScore (this st)) /\
     maxScore (this st') == Qmax (maxScore (this st)) (score (this st)) /\
     score (this st') = 0 /\
     filter isScoreCall evs = [ECall m_saveMaxScore; ECall m_resetScore] /\
     ~ In (ECall m_updateScore) evs).
Proof.
  intros Hi Hg. destruct st as [g clk tk tr].
  destruct (initialised_inv g Hi) as (cv & gw & im & om & s & r & E).
  cbn [this] in *. rewrite E, Hg, run_running. cbv zeta.
  eexists. eexists. split; [reflexivity|]. split; [reflexivity|].
  unfold playerDead. cbn [this skier gameState score maxScore].
  match goal with |- context [isDead ?a] => destruct (isDead a) end.
  - split; [easy|]. intros _.
    repeat split; try reflexivity.
    + unfold Math_max. apply Q.max_comm.
    + cbn. intuition discriminate.
  - split; [split; discriminate|]. discriminate.
Qed.

(** C4.  Over [n] frames in a row, starting in state RUNNING, after none of
    which the player is dead, the score grows by [n] times 1/2, maxScore does
    not change, and the state stays RUNNING. *)
Theorem C4_score_accrual (n : nat) (st : State) :
  initialised (this st) = true ->
  gameState (this st) = RUNNING ->
  (forall k st_k, (k < n)%nat -> frames (S k) st = Some (tt, st_k) ->
                  playerDead st_k = false) ->
  exists st',
    frames n st = Some (tt, st') /\
    score (this st') == score (this st) + inject_Z (Z.of_nat n) * (1 # 2) /\
    maxScore (this st') = maxScore (this st) /\
    gameState (this st') = RUNNING.
Proof.
  revert st. induction n as [|n IH]; intros st Hi Hg Halive.
  - exists st. split; [reflexivity|]. split; [|easy].
    change (inject_Z (Z.of_nat 0)) with 0. lra.
  - destruct st as [[[cv|] [gw|] gt [im|] [om|] [s|] [r|] gs sc ms] clk tk tr];
      try discriminate Hi.
    cbn [this gameState score maxScore] in *. subst gs.
    assert (R := run_running cv gw gt im om s r sc ms clk tk tr).
    cbv zeta in R.
    match type of R with
    | _ = Some (tt, ?st1) => set (st1' := st1) in *
    end.
    assert (D : playerDead st1' = false).
    { apply (Halive O); [lia|]. cbn [frames]. unfold bind, ret. rewrite R. reflexivity. }
    assert (D' := D). unfold playerDead in D'. cbn [st1' this skier] in D'.
    destruct (IH st1') as (st' & Ef & Hsc & Hms & Hgs).
    + reflexivity.
    + cbn [st1' this gameState]. rewrite D'. reflexivity.
    + intros k st_k Hk Ek. apply (Halive (S k)); [lia|].
      change (frames (S (S k))) with (bind run (fun _ => frames (S k))).
      unfold bind at 1. rewrite R. exact Ek.
    + exists st'. cbn [frames]. unfold bind at 1. rewrite R.
      split; [exact Ef|].
      cbn [st1' this score maxScore] in Hsc, Hms. rewrite D' in Hsc, Hms.
      repeat split; try assumption.
      rewrite Hsc, Nat2Z.inj_succ. unfold Z.succ. rewrite inject_Z_plus.
      change (inject_Z 1) with 1. generalize (inject_Z (Z.of_nat n)). intro q. lra.
Qed.

(** C8.  A frame that starts in state RUNNING reads the clock once; then, in
    this order and once each, it recomputes the window, hands the obstacle
    manager the new window and the previous one, updates the skier and
    updates the rhino, the two updates with the one reading of the clock.
    The rhino's update is given the skier that the skier's update produced,
    and the skier's update the obstacle manager as reconciled. *)
Theorem C8_update_order cv gw gt im om s r sc ms (st : State) :
  this st = mkGame (Some cv) (Some gw) gt (Some im) (Some om) (Some s) (Some r)
                   RUNNING sc ms ->
  exists st' gw' evs,
    let now := clock st (ticks st) in
    let cv1 := clearCanvas cv in
    let om' := placeNewObstacle gw' gw im cv1 om in
    let s1 := Skier_update now im om' cv1 s in
    run st = Some (tt, st') /\
    trace st' = trace st ++ evs /\
    ticks st' = S (ticks st) /\
    filter isUpdateStep evs =
      [EDateNow now; ECall m_calculateGameWindow; EPlaceNewObstacle gw' gw;
       ESkierUpdate now; ERhinoUpdate now] /\
    gameTime (this st') = now /\
    gameWindow (this st') = Some gw' /\
    obstacleManager (this st') = Some om' /\
    skier (this st') = Some (snd (Rhino_update now s1 im cv1 r)) /\
    rhino (this st') = Some (fst (Rhino_update now s1 im cv1 r)).
Proof.
  intro E. destruct st as [g clk tk tr]. cbn [this] in E. subst g.
  rewrite run_running. cbv zeta.
  eexists. eexists. eexists. split; [reflexivity|]. split; [reflexivity|].
  cbn [this clock ticks gameTime gameWindow obstacleManager skier rhino].
  split; [reflexivity|]. split.
  - unfold updateEvents, drawEvents.
    match goal with |- context [isDead ?a] => destruct (isDead a) end; reflexivity.
  - repeat split; reflexivity.
Qed.

(** C10.  A frame in state GAME_OVER does not clear the canvas and does not
    read the clock, so gameTime stays as it was.  The only calls it makes on
    a collaborator are the two text draws, of the game-over message and of
    the restart prompt, and the canvas so painted is the only field of the
    object that changes; like every frame it ends by asking the platform for
    the next one. *)
Theorem C10_game_over_frame (cv : Canvas) (st : State) :
  canvas (this st) = Some cv ->
  gameState (this st) = GAME_OVER ->
  exists st' evs,
    run st = Some (tt, st') /\
    trace st' = trace st ++ evs /\
    evs = [ECall m_run; ECall m_drawGameOver;
           EDrawText "Game Over!" (GAME_WIDTH / 2 - 100) (GAME_HEIGHT / 2)
                     "30px Roboto" "red";
           EDrawText "Press Enter to restart" (GAME_WIDTH / 2 - 110) (GAME_HEIGHT / 2 + 40)
                     "20px Roboto" "green";
           ERequestAnimationFrame] /\
    filter onCollaborator evs =
      [EDrawText "Game Over!" (GAME_WIDTH / 2 - 100) (GAME_HEIGHT / 2)
                 "30px Roboto" "red";
       EDrawText "Press Enter to restart" (GAME_WIDTH / 2 - 110) (GAME_HEIGHT / 2 + 40)
                 "20px Roboto" "green"] /\
    filter isClear evs = [] /\
    filter isDateNow evs = [] /\
    ticks st' = ticks st /\
    gameTime (this st') = gameTime (this st) /\
    this st' =
      with_canvas
        (drawText "Press Enter to restart" (GAME_WIDTH / 2 - 110) (GAME_HEIGHT / 2 + 40)
                  "20px Roboto" "green"
           (drawText "Game Over!" (GAME_WIDTH / 2 - 100) (GAME_HEIGHT / 2)
                     "30px Roboto" "red" cv))
        (this st).
Proof.
  intros Hc Hg. destruct st as [[cv0 gw gt im om s r gs sc ms] clk tk tr].
  cbn [this canvas gameState] in *. subst cv0 gs.
  rewrite run_game_over. cbv zeta.
  eexists. eexists. split; [reflexivity|]. split; [reflexivity|].
  repeat split; reflexivity.
Qed.

(** C5, amended.  In every session, a value the score held at any earlier
    moment is at most the larger of maxScore and the score of the run in
    progress; and whenever the state is GAME_OVER it is at most maxScore. *)
Theorem C5_best_score (clk : nat -> number) (l1 l2 : list Input) :
  exists s1 s2,
    session clk l1 = Some s1 /\
    session clk (l1 ++ l2) = Some s2 /\
    score (this s1) <= Qmax (maxScore (this s2)) (score (this s2)) /\
    (gameState (this s2) = GAME_OVER -> score (this s1) <= maxScore (this s2)).
Proof.
  destruct (session_Inv clk l1) as (s1 & E1 & H1).
  destruct (steps_Inv l2 s1 H1) as (s2 & E2 & H2 & _ & _ & Hb).
  exists s1, s2. split; [exact E1|].
  split; [rewrite (session_app clk l1 l2 s1 E1); unfold execM; now rewrite E2|].
  unfold best in Hb. destruct H2 as (_ & Hm & _ & Hg).
  split.
  - qmax.
  - intro G. rewrite (Hg G) in Hb. qmax.
Qed.

(** C7.  Enter pressed in state GAME_OVER, at any point of any session:
    the state becomes RUNNING, the score is 0, maxScore keeps its value, the
    image manager is the one there was and none is created, the skier is a
    new one constructed at (0, 0), and the window is recomputed around the
    position of that skier. *)
Theorem C7_restart (clk : nat -> number) (l : list Input) (st : State) :
  session clk l = Some st ->
  gameState (this st) = GAME_OVER ->
  exists st' evs im gw,
    handleKeyDown "Enter" st = Some (tt, st') /\
    trace st' = trace st ++ evs /\
    gameState (this st') = RUNNING /\
    score (this st') = 0 /\
    maxScore (this st') = maxScore (this st) /\
    imageManager (this st) = Some im /\
    imageManager (this st') = Some im /\
    ~ In ENewImageManager evs /\
    In (ENewSkier 0 0) evs /\
    skier (this st') =
      Some (new_Skier 0 0 im
              (placeInitialObstacles im (new_Canvas GAME_CANVAS GAME_WIDTH GAME_HEIGHT)
                 (new_ObstacleManager im (new_Canvas GAME_CANVAS GAME_WIDTH GAME_HEIGHT)))
              (new_Canvas GAME_CANVAS GAME_WIDTH GAME_HEIGHT)) /\
    gameWindow (this st') = Some gw /\
    (forall s', skier (this st') = Some s' -> centredOn (Skier_getPosition s') gw).
Proof.
  intros E Hg.
  destruct (session_Inv clk l) as (st0 & E0 & Hi & _ & _ & Hz).
  rewrite E in E0. injection E0 as <-.
  specialize (Hz Hg).
  destruct st as [[[cv|] [gw|] gt [im|] [om|] [s|] [r|] gs sc ms] clk' tk tr];
    try discriminate Hi.
  cbn [this gameState score] in *. subst gs sc.
  rewrite handleKeyDown_restart. cbv zeta.
  eexists. eexists. exists im. eexists.
  split; [reflexivity|]. split; [reflexivity|].
  cbn [this gameState score maxScore imageManager skier gameWindow].
  do 5 (split; [reflexivity|]).
  split; [|split; [|split; [reflexivity|split; [reflexivity|]]]].
  - unfold initEvents. cbn. intuition discriminate.
  - unfold initEvents. cbn. auto 10.
  - intros s' [= <-]. unfold centredOn.
    cbn [Rect.left Rect.top Rect.right Rect.bottom].
    repeat split; try reflexivity; ring.
Qed.

(** C9.  maxScore never decreases.  Over a session, which always runs to
    its end, maxScore after more inputs is at least what it was; and no
    single operation of the controller (a frame, a key event, a restart, a
    score update, the death bookkeeping, any drawing) lowers it, from any
    state of the object. *)
Theorem C9_maxScore_monotone :
  (forall (clk : nat -> number) (l1 l2 : list Input),
      exists s1 s2,
        session clk l1 = Some s1 /\
        session clk (l1 ++ l2) = Some s2 /\
        maxScore (this s1) <= maxScore (this s2)) /\
  (forall (o : Operation) (st st' : State),
      perform o st = Some (tt, st') ->
      maxScore (this st) <= maxScore (this st')).
Proof.
  split.
  - intros clk l1 l2.
    destruct (session_Inv clk l1) as (s1 & E1 & H1).
    destruct (steps_Inv l2 s1 H1) as (s2 & E2 & _ & _ & Hm & _).
    exists s1, s2. split; [exact E1|].
    split; [rewrite (session_app clk l1 l2 s1 E1); unfold execM; now rewrite E2|].
    exact Hm.
  - intros o st st' E. exact (keepsMax_perform o st tt st' E).
Qed.

End Claims.

(** * The claims on the sample game *)

(** C1 as stated fails: it would have every frame paint the obstacle field
    first, and the first frame of the sample game paints it third. *)
Lemma C1_obstacles_first_fails :
  ~ (forall (C : Collaborators) (st st' : State) (evs : list Event),
        initialised (this st) = true ->
        gameState (this st) = RUNNING ->
        run st = Some (tt, st') ->
        trace st' = trace st ++ evs ->
        drawOrder evs = [Obstacles; Player; Pursuer; Overlay]).
Proof.
  intro H.
  assert (E : drawOrder (Sample.appended [Load] Frame)
              = [Obstacles; Player; Pursuer; Overlay]).
  { apply (H Sample.collaborators Sample.fresh (Sample.after [Load; Frame]));
      vm_compute; reflexivity. }
  vm_compute in E. discriminate E.
Qed.

Lemma C1_draw_order_witness :
  exists st',
    run (C := Sample.collaborators) Sample.fresh = Some (tt, st') /\
    drawOrder (skipn (List.length (trace Sample.fresh)) (trace st'))
    = [Player; Pursuer; Obstacles; Overlay].
Proof.
  destruct (C1_draw_order (C := Sample.collaborators) Sample.fresh)
    as (st' & now & upd & drw & gw' & E & _); [reflexivity | reflexivity |].
  exists st'. split; [exact E|].
  vm_compute in E. injection E as <-. vm_compute. reflexivity.
Defined.

(** C2 as stated fails on the numbers of the program: for a skier at
    (1414.2271248762552, 671.7578843162213) on a display of 1280 by 720 the
    window has left = x - W/2 and top = y - H/2, but right - left is not W
    and bottom - top is not H, the two additions having rounded. *)
Lemma C2_width_is_rounded :
  let gw := Binary64.calculateGameWindow
              0x1.618e8936c6e7fp+10%float 0x1.4fe1025a70293p+9%float 1280 720 in
  Binary64.same (Binary64.left gw) (0x1.618e8936c6e7fp+10 - 1280 / 2)%float = true /\
  Binary64.same (Binary64.top gw) (0x1.4fe1025a70293p+9 - 720 / 2)%float = true /\
  Binary64.same (Binary64.right gw - Binary64.left gw)%float 1280%float = false /\
  Binary64.same (Binary64.bottom gw - Binary64.top gw)%float 720%float = false.
Proof. vm_compute. repeat split; reflexivity. Qed.

Lemma C2_viewport_witness :
  exists st',
    calculateGameWindow (C := Sample.collaborators) Sample.fresh = Some (tt, st') /\
    gameWindow (this st')
    = Some (Rect.new (0 - 1280 / 2) (0 - 720 / 2)
                     (0 - 1280 / 2 + 1280) (0 - 720 / 2 + 720)).
Proof.
  destruct (C2_viewport (C := Sample.collaborators) Sample.fresh
              (Sample.mkSkier (Position.new 0 0) Sample.STATE_SKIING))
    as [(st' & E & Eg) _]; [reflexivity|].
  exists st'. split; [exact E|exact Eg].
Defined.

Lemma C3_death_transition_witness :
  exists st',
    run (C := Sample.collaborators) Sample.lastRun = Some (tt, st') /\
    gameState (this st') = GAME_OVER /\
    maxScore (this st') == 1 /\
    score (this st') = 0.
Proof.
  destruct (C3_death_transition (C := Sample.collaborators) Sample.lastRun)
    as (st' & evs & E & _ & Hg & Hd); [reflexivity | reflexivity |].
  exists st'. split; [exact E|].
  assert (D : playerDead st' = true).
  { vm_compute in E. injection E as <-. reflexivity. }
  destruct (Hd D) as (Hm & _ & Hs & _).
  split; [apply Hg, D|]. split; [|exact Hs].
  rewrite Hm. vm_compute. reflexivity.
Defined.

Lemma C4_score_accrual_witness :
  exists st',
    frames (C := Sample.collaborators) 2 Sample.fresh = Some (tt, st') /\
    score (this st') == 1 /\
    maxScore (this st') = 0.
Proof.
  destruct (C4_score_accrual (C := Sample.collaborators) 2 Sample.fresh)
    as (st' & E & Hs & Hm & _).
  - reflexivity.
  - reflexivity.
  - intros k st_k Hk Ek.
    destruct k as [|[|k]]; [| |lia];
      vm_compute in Ek; injection Ek as <-; reflexivity.
  - exists st'. split; [exact E|]. split; [|exact Hm].
    rewrite Hs. vm_compute. reflexivity.
Defined.

(** C5 as stated fails: after the first frame of the sample game the score
    is 1/2 and maxScore is still 0. *)
Lemma C5_score_exceeds_maxScore :
  ~ (forall (C : Collaborators) (clk : nat -> number) (l1 l2 : list Input)
            (s1 s2 : State),
        session clk l1 = Some s1 ->
        session clk (l1 ++ l2) = Some s2 ->
        score (this s1) <= maxScore (this s2)).
Proof.
  intro H.
  specialize (H Sample.collaborators Sample.clock [Load; Frame] []
                (Sample.after [Load; Frame]) (Sample.after [Load; Frame])).
  cbn [app] in H.
  assert (L : maxScore (this (Sample.after [Load; Frame]))
             < score (this (Sample.after [Load; Frame])))
    by (vm_compute; reflexivity).
  apply (Qlt_not_le _ _ L). apply H; vm_compute; reflexivity.
Qed.

Lemma C5_best_score_witness :
  score (this Sample.lastRun) <= maxScore (this Sample.over).
Proof.
  destruct (C5_best_score (C := Sample.collaborators) Sample.clock
              [Load; Frame; Frame] [Frame])
    as (s1 & s2 & E1 & E2 & _ & H).
  vm_compute in E1. injection E1 as <-.
  vm_compute in E2. injection E2 as <-.
  apply H. reflexivity.
Defined.

Lemma C7_restart_witness :
  exists st',
    handleKeyDown (C := Sample.collaborators) "Enter" Sample.over = Some (tt, st') /\
    gameState (this st') = RUNNING /\
    score (this st') = 0 /\
    maxScore (this st') = maxScore (this Sample.over) /\
    imageManager (this st') = imageManager (this Sample.over).
Proof.
  destruct (C7_restart (C := Sample.collaborators) Sample.clock
              [Load; Frame; Frame; Frame] Sample.over)
    as (st' & evs & im & gw & E & _ & Hg & Hs & Hm & Hi & Hi' & _);
    [vm_compute; reflexivity | reflexivity |].
  exists st'. repeat split; try assumption. congruence.
Defined.

Lemma C8_update_order_witness :
  exists st',
    run (C := Sample.collaborators) Sample.fresh = Some (tt, st') /\
    ticks st' = 2%nat /\
    filter isUpdateStep (skipn (List.length (trace Sample.fresh)) (trace st'))
    = [EDateNow 1; ECall m_calculateGameWindow;
       EPlaceNewObstacle (Rect.new (0 - 1280 / 2) (0 - 720 / 2)
                                   (0 - 1280 / 2 + 1280) (0 - 720 / 2 + 720))
                         (Rect.new (0 - 1280 / 2) (0 - 720 / 2)
                                   (0 - 1280 / 2 + 1280) (0 - 720 / 2 + 720));
       ESkierUpdate 1; ERhinoUpdate 1].
Proof.
  destruct (C8_update_order (C := Sample.collaborators)
              (Sample.mkCanvas (0, 0) [])
              (Rect.new (0 - 1280 / 2) (0 - 720 / 2)
                        (0 - 1280 / 2 + 1280) (0 - 720 / 2 + 720))
              0 true 5%nat
              (Sample.mkSkier (Position.new 0 0) Sample.STATE_SKIING)
              (Position.new (-500) (-2000)) 0 0 Sample.fresh)
    as (st' & gw' & evs & E & _ & Ht & _); [vm_compute; reflexivity|].
  exists st'. split; [exact E|]. split; [exact Ht|].
  vm_compute in E. injection E as <-. vm_compute. reflexivity.
Defined.

Lemma C9_maxScore_monotone_witness :
  maxScore (this Sample.lastRun) <= maxScore (this Sample.over).
Proof.
  destruct (C9_maxScore_monotone (C := Sample.collaborators)) as [_ H].
  apply (H OpFrame Sample.lastRun Sample.over). vm_compute. reflexivity.
Defined.

Lemma C10_game_over_frame_witness :
  exists st',
    run (C := Sample.collaborators) Sample.over = Some (tt, st') /\
    ticks st' = ticks Sample.over /\
    gameTime (this st') = gameTime (this Sample.over) /\
    canvas (this st')
    = Some (Sample.mkCanvas (0 - 1280 / 2, 20 - 720 / 2)
              ["skier"; "rhino"; "obstacles"; "Max Score: 1   Score: 0";
               "Game Over!"; "Press Enter to restart"]%string).
Proof.
  destruct (C10_game_over_frame (C := Sample.collaborators)
              (Sample.mkCanvas (0 - 1280 / 2, 20 - 720 / 2)
                 ["skier"; "rhino"; "obstacles"; "Max Score: 1   Score: 0"]%string)
              Sample.over)
    as (st' & evs & E & _ & _ & _ & _ & _ & Ht & Hg & Hthis);
    [vm_compute; reflexivity | reflexivity |].
  exists st'. split; [exact E|]. split; [exact Ht|]. split; [exact Hg|].
  rewrite Hthis. reflexivity.
Defined.

(** * Further properties of the controller *)

(** Case analysis of one input in an initialised state: the equation [E] of
    the step is replaced by the state it leads to. *)
Ltac open_state st Hi :=
  destruct st as [[[?cv|] [?gw|] ?gt [?im|] [?om|] [?s|] [?r|] ?gs ?sc ?ms] ?clk ?tk ?tr];
  try discriminate Hi.

Ltac step_cases i E :=
  destruct i as [| |?key]; cbn [step] in E;
  [ rewrite load_full in E
  | match type of E with
    | run (mkState (mkGame _ _ _ _ _ _ _ ?g _ _) _ _ _) = _ =>
        destruct g; [rewrite run_running in E | rewrite run_game_over in E]
    end
  | match type of E with
    | handleKeyDown ?k (mkState (mkGame _ _ _ _ _ _ _ ?g _ _) _ _ _) = _ =>
        let R := fresh "R" in
        destruct (GameState_eqb g GAME_OVER && String.eqb k "Enter") eqn:R;
        [ let Rg := fresh "Rg" in
          let Rk := fresh "Rk" in
          apply andb_true_iff in R as [Rg Rk];
          apply String.eqb_eq in Rk; subst k;
          destruct g; [discriminate Rg|];
          rewrite handleKeyDown_restart in E
        | rewrite (handleKeyDown_forward _ _ _ _ _ _ _ _ _ _ _ _ _ _ R) in E ]
    end ];
  cbv zeta in E; injection E as <-.

Ltac fields :=
  cbn [this clock ticks trace canvas gameWindow gameTime imageManager obstacleManager
       skier rhino gameState score maxScore initialised].

Tactic Notation "fields" "in" hyp(H) :=
  cbn [this clock ticks trace canvas gameWindow gameTime imageManager obstacleManager
       skier rhino gameState score maxScore initialised] in H.

Section Further.

Context {C : Collaborators}.

(** A property of the state that construction establishes and every input
    preserves holds at the end of every session. *)
Lemma steps_invariant (P : State -> Prop) :
  (forall i st st', Inv st -> P st -> step i st = Some (tt, st') -> P st') ->
  forall l st st', Inv st -> P st -> steps l st = Some (tt, st') -> P st'.
Proof.
  intros Hstep. induction l as [|i l IH]; intros st st' Hi Hp E.
  - injection E as <-. exact Hp.
  - cbn [steps] in E. unfold bind in E.
    destruct (step_Inv i st Hi) as (st1 & E1 & Hi1 & _).
    rewrite E1 in E. apply (IH st1 st' Hi1); [|exact E].
    exact (Hstep i st st1 Hi Hp E1).
Qed.

Lemma session_nil (clk : nat -> number) : session clk [] = new_Game clk.
Proof. unfold session. destruct (new_Game clk); reflexivity. Qed.

Lemma session_invariant (P : State -> Prop) (clk : nat -> number) :
  (forall st0, new_Game clk = Some st0 -> P st0) ->
  (forall i st st', Inv st -> P st -> step i st = Some (tt, st') -> P st') ->
  forall l st, session clk l = Some st -> P st.
Proof.
  intros Hnew Hstep l st E.
  destruct (started_Inv clk) as (st0 & E0 & Hi0 & Eall & _).
  rewrite Eall in E. unfold execM in E.
  destruct (steps l st0) as [[[] st1]|] eqn:Es; [|discriminate E].
  injection E as <-.
  apply (steps_invariant P Hstep l st0 st1 Hi0); [|exact Es].
  apply Hnew. rewrite <- session_nil. exact E0.
Qed.

(** X1.  [new Game()] never uses a field before [init] has assigned it,
    whatever the clock reads.  The object it returns has every field
    assigned, is in state RUNNING with both scores 0, holds the one reading
    of the clock as gameTime and a window centred on its skier; each
    collaborator was created once and one keydown listener was registered. *)
Theorem construction (clk : nat -> number) :
  exists st s gw,
    new_Game clk = Some st /\
    initialised (this st) = true /\
    gameState (this st) = RUNNING /\
    score (this st) = 0 /\ maxScore (this st) = 0 /\
    clock st = clk /\ ticks st = 1%nat /\ gameTime (this st) = clk O /\
    skier (this st) = Some s /\ gameWindow (this st) = Some gw /\
    centredOn (Skier_getPosition s) gw /\
    filter onCollaborator (trace st) =
      [ENewCanvas GAME_CANVAS GAME_WIDTH GAME_HEIGHT; ENewImageManager;
       ENewObstacleManager; EPlaceInitialObstacles;
       ENewSkier 0 0; ENewRhino (-500) (-2000); ESkierGetPosition] /\
    filter isAddEventListener (trace st) = [EAddEventListener "keydown"].
Proof.
  eexists. eexists. eexists. split; [apply new_Game_full|]. fields.
  do 9 (split; [reflexivity|]). split; [|split; reflexivity].
  unfold centredOn. cbn [Rect.left Rect.top Rect.right Rect.bottom].
  repeat split; try reflexivity; ring.
Qed.

(** X2.  No session ever uses an undefined field: whatever the clock and
    whatever the sequence of loads, frames and key presses after
    construction, every call returns.  At the end every field is assigned,
    both scores are non-negative, and the score is 0 in state GAME_OVER. *)
Theorem session_safe (clk : nat -> number) (l : list Input) :
  exists st,
    session clk l = Some st /\
    initialised (this st) = true /\
    0 <= score (this st) /\
    0 <= maxScore (this st) /\
    (gameState (this st) = GAME_OVER -> score (this st) = 0).
Proof.
  destruct (session_Inv clk l) as (st & E & Hi & Hm & Hs & Hg).
  exists st. repeat split; assumption.
Qed.

Lemma steps_requests (l : list Input) (st st' : State) :
  Inv st ->
  steps l st = Some (tt, st') ->
  List.length (filter isRequest (trace st'))
  = (List.length (filter isRequest (trace st)) + List.length (filter isFrame l))%nat.
Proof.
  revert st. induction l as [|i l IH]; intros st Hi E.
  - injection E as <-. cbn. lia.
  - cbn [steps] in E. unfold bind in E.
    destruct (step_Inv i st Hi) as (st1 & E1 & Hi1 & _).
    rewrite E1 in E. rewrite (IH st1 Hi1 E). clear IH E Hi1.
    destruct Hi as (Hi & _). open_state st Hi.
    step_cases i E1; fields;
      try match goal with |- context [isDead ?a] => destruct (isDead a) end;
      try match goal with
          | |- context [snd (Skier_handleInput ?k ?a ?b ?c ?d)] =>
              destruct (snd (Skier_handleInput k a b c d))
          end;
      rewrite !filter_app, !length_app; cbn; lia.
Qed.

(** X3.  In every session exactly one image manager is created and exactly
    one keydown listener is registered, however often the game is
    restarted; and the platform is asked for a next frame exactly once per
    frame delivered, in either state. *)
Theorem created_once (clk : nat -> number) (l : list Input) :
  exists st,
    session clk l = Some st /\
    List.length (filter isNewImageManager (trace st)) = 1%nat /\
    List.length (filter isAddEventListener (trace st)) = 1%nat /\
    List.length (filter isRequest (trace st)) = List.length (filter isFrame l).
Proof.
  destruct (session_Inv clk l) as (st & E & _).
  exists st. split; [exact E|].
  assert (H12 : List.length (filter isNewImageManager (trace st)) = 1%nat /\
                List.length (filter isAddEventListener (trace st)) = 1%nat).
  { revert l st E. apply session_invariant.
    - intros st0 E0. rewrite new_Game_full in E0. cbv zeta in E0. injection E0 as <-.
      split; reflexivity.
    - intros i st st' (Hi & _) (H1 & H2) E. open_state st Hi. fields in H1. fields in H2.
      step_cases i E; fields;
        try match goal with |- context [isDead ?a] => destruct (isDead a) end;
        try match goal with
            | |- context [snd (Skier_handleInput ?k ?a ?b ?c ?d)] =>
                destruct (snd (Skier_handleInput k a b c d))
            end;
        rewrite !filter_app, !length_app, H1, H2; split; reflexivity. }
  split; [apply H12|]. split; [apply H12|].
  destruct (started_Inv clk) as (st0 & E0 & Hi0 & Eall & _).
  rewrite Eall in E. unfold execM in E.
  destruct (steps l st0) as [[[] st1]|] eqn:Es; [|discriminate E].
  injection E as <-.
  rewrite (steps_requests l st0 st1 Hi0 Es).
  rewrite session_nil, new_Game_full in E0. cbv zeta in E0. injection E0 as <-.
  reflexivity.
Qed.

Lemma halves_S (n : nat) : halves (S n) == halves n + (1 # 2).
Proof.
  unfold halves. rewrite Nat2Z.inj_succ. unfold Z.succ. rewrite inject_Z_plus.
  change (inject_Z 1) with 1. generalize (inject_Z (Z.of_nat n)). intro q. lra.
Qed.

(** X4.  Both scores are always whole multiples of 1/2: at the end of every
    session the score is n/2 and maxScore is m/2 for some natural numbers n
    and m. *)
Theorem scores_are_halves (clk : nat -> number) (l : list Input) :
  exists st n m,
    session clk l = Some st /\
    score (this st) == halves n /\
    maxScore (this st) == halves m.
Proof.
  destruct (session_Inv clk l) as (st & E & _).
  assert (H : exists n m, score (this st) == halves n /\ maxScore (this st) == halves m).
  { revert l st E. apply session_invariant.
    - intros st0 E0. rewrite new_Game_full in E0. cbv zeta in E0. injection E0 as <-.
      exists O, O. fields. split; reflexivity.
    - intros i st st' (Hi & _) (n & m & Hn & Hm) E. open_state st Hi.
      fields in Hn. fields in Hm.
      step_cases i E; fields; try (exists n, m; split; assumption).
      match goal with |- context [isDead ?a] => destruct (isDead a) end.
      + unfold Math_max. destruct (Q.max_spec sc ms) as [[_ Hx]|[_ Hx]].
        * exists O, m. split; [reflexivity|]. now rewrite Hx.
        * exists O, n. split; [reflexivity|]. now rewrite Hx.
      + exists (S n), m. split; [|assumption]. rewrite halves_S, Hn. reflexivity. }
  destruct H as (n & m & H). exists st, n, m. split; [exact E|exact H].
Qed.

(** X5.  gameTime is always the latest reading of the clock.  At the end of
    every session the readings consumed are exactly the [Date.now()] calls
    of the trace, there is at least one (the field initialiser's), and
    gameTime holds the last of them. *)
Theorem gameTime_is_last_reading (clk : nat -> number) (l : list Input) :
  exists st,
    session clk l = Some st /\
    clock st = clk /\
    ticks st = List.length (filter isDateNow (trace st)) /\
    (0 < ticks st)%nat /\
    gameTime (this st) = clk (ticks st - 1)%nat.
Proof.
  destruct (session_Inv clk l) as (st & E & _).
  exists st. split; [exact E|].
  revert l st E. apply session_invariant.
  - intros st0 E0. rewrite new_Game_full in E0. cbv zeta in E0. injection E0 as <-.
    fields. repeat split; try reflexivity. lia.
  - intros i st st' (Hi & _) (Hc & Ht & Hp & Hg) E. open_state st Hi.
    fields in Hc. fields in Ht. fields in Hp. fields in Hg. subst clk0.
    step_cases i E; fields;
      try match goal with |- context [isDead ?a] => destruct (isDead a) end;
      try match goal with
          | |- context [snd (Skier_handleInput ?k ?a ?b ?c ?d)] =>
              destruct (snd (Skier_handleInput k a b c d))
          end;
      rewrite !filter_app, !length_app; cbn [filter isDateNow List.length app];
      rewrite ?Nat.sub_0_r;
      repeat split; try reflexivity; try assumption; try lia;
      apply f_equal; lia.
Qed.

(** X6.  The right and bottom edges of the window are always its left and
    top edges plus the size of the display: at the end of every session the
    window is the rectangle (left, top, left + W, top + H), the two sums
    being the program's own additions, wherever the skier went and however
    often the game was restarted. *)
Theorem window_edges (clk : nat -> number) (l : list Input) :
  exists st gw,
    session clk l = Some st /\
    gameWindow (this st) = Some gw /\
    Rect.right gw = Rect.left gw + GAME_WIDTH /\
    Rect.bottom gw = Rect.top gw + GAME_HEIGHT.
Proof.
  destruct (session_Inv clk l) as (st & E & _).
  assert (H : exists gw, gameWindow (this st) = Some gw /\
                         Rect.right gw = Rect.left gw + GAME_WIDTH /\
                         Rect.bottom gw = Rect.top gw + GAME_HEIGHT).
  { revert l st E. apply session_invariant.
    - intros st0 E0. rewrite new_Game_full in E0. cbv zeta in E0. injection E0 as <-.
      eexists. fields. split; [reflexivity|]. split; reflexivity.
    - intros i st st' (Hi & _) (gw0 & Hg & Hw & Hh) E. open_state st Hi.
      fields in Hg. injection Hg as ->.
      step_cases i E; fields;
        try (exists gw0; split; [reflexivity|split; assumption]);
        (eexists; split; [reflexivity|]; split; reflexivity). }
  destruct H as (gw & H). exists st, gw. split; [exact E|exact H].
Qed.

(** X7.  Routing of a key event.  The key restarts the game exactly when
    the state is GAME_OVER and the key is Enter; that key is not handed to
    the skier and its default action is prevented.  Every other key event,
    Enter in state RUNNING included, is handed to the skier's [handleInput]
    once, starts no [init], leaves the state as it was, and its default
    action is prevented exactly when the skier handled it. *)
Theorem key_routing (key : string) (st : State) :
  initialised (this st) = true ->
  exists st' evs cv im om s,
    canvas (this st) = Some cv /\ imageManager (this st) = Some im /\
    obstacleManager (this st) = Some om /\ skier (this st) = Some s /\
    handleKeyDown key st = Some (tt, st') /\
    trace st' = trace st ++ evs /\
    let restart := restarts (gameState (this st)) key in
    let handled := snd (Skier_handleInput key im om cv s) in
    filter isInit evs = (if restart then [ECall m_init] else []) /\
    filter isHandleInput evs = (if restart then [] else [ESkierHandleInput key]) /\
    filter isPreventDefault evs = (if restart || handled then [EPreventDefault] else []) /\
    gameState (this st') = (if restart then RUNNING else gameState (this st)).
Proof.
  intro Hi. open_state st Hi. fields. unfold restarts.
  destruct (GameState_eqb gs GAME_OVER && String.eqb key "Enter") eqn:R.
  - apply andb_true_iff in R as [Rg Rk]. apply String.eqb_eq in Rk. subst key.
    destruct gs; [discriminate Rg|].
    eexists. eexists. exists cv, im, om, s. do 4 (split; [reflexivity|]).
    split; [apply handleKeyDown_restart|]. fields. split; [reflexivity|].
    repeat split; reflexivity.
  - eexists. eexists. exists cv, im, om, s. do 4 (split; [reflexivity|]).
    split; [apply (handleKeyDown_forward _ _ _ _ _ _ _ _ _ _ _ _ _ _ R)|].
    fields. split; [reflexivity|]. cbv zeta.
    destruct (snd (Skier_handleInput key im om cv s)); repeat split; reflexivity.
Qed.

(** X8.  The frame in which the player dies still clears the canvas and
    paints the game window, with a score of 0 and the new maxScore in the
    overlay; the game-over screen is not painted in that frame.  The next
    frame paints the two messages over that last picture, the canvas not
    being cleared. *)
Theorem death_then_game_over (st st1 : State) :
  initialised (this st) = true ->
  gameState (this st) = RUNNING ->
  run st = Some (tt, st1) ->
  playerDead st1 = true ->
  exists st2 cv1 evs1 evs2,
    canvas (this st1) = Some cv1 /\
    trace st1 = trace st ++ evs1 /\
    filter isClear evs1 = [EClearCanvas] /\
    drawOrder evs1 = [Player; Pursuer; Obstacles; Overlay] /\
    filter isDrawText evs1 =
      [EDrawText (scoreText (Math_max (score (this st)) (maxScore (this st))) 0)
                 (GAME_WIDTH - 30 - 270) 30 "20px Arial" "black"] /\
    run st1 = Some (tt, st2) /\
    trace st2 = trace st1 ++ evs2 /\
    filter isClear evs2 = [] /\
    canvas (this st2) =
      Some (drawText "Press Enter to restart" (GAME_WIDTH / 2 - 110) (GAME_HEIGHT / 2 + 40)
                     "20px Roboto" "green"
              (drawText "Game Over!" (GAME_WIDTH / 2 - 100) (GAME_HEIGHT / 2)
                        "30px Roboto" "red" cv1)) /\
    gameState (this st2) = GAME_OVER.
Proof.
  intros Hi Hg E D. open_state st Hi. fields in Hg. subst gs.
  rewrite run_running in E. cbv zeta in E. injection E as <-.
  unfold playerDead in D. fields in D. fields. rewrite D.
  eexists. eexists. eexists. eexists.
  split; [reflexivity|]. split; [reflexivity|].
  do 3 (split; [reflexivity|]).
  split; [apply run_game_over|]. fields. repeat split; reflexivity.
Qed.

(** X9.  GAME_OVER is left by Enter only.  From a state GAME_OVER of the
    invariant, any sequence of loads, frames and key presses without Enter
    runs to its end in state GAME_OVER, reads no clock, and leaves the
    scores, gameTime, the window, the rhino and the obstacle manager as
    they were. *)
Theorem game_over_absorbing (l : list Input) (st : State) :
  Inv st ->
  gameState (this st) = GAME_OVER ->
  Forall (fun i => i <> KeyDown "Enter") l ->
  exists st',
    steps l st = Some (tt, st') /\
    gameState (this st') = GAME_OVER /\
    score (this st') = score (this st) /\
    maxScore (this st') = maxScore (this st) /\
    gameTime (this st') = gameTime (this st) /\
    ticks st' = ticks st /\
    gameWindow (this st') = gameWindow (this st) /\
    rhino (this st') = rhino (this st) /\
    obstacleManager (this st') = obstacleManager (this st).
Proof.
  revert st. induction l as [|i l IH]; intros st Hv Hg Hl.
  - exists st. split; [reflexivity|]. split; [exact Hg|]. repeat split; reflexivity.
  - apply Forall_cons_iff in Hl as [Hi Hl].
    destruct (step_Inv i st Hv) as (st1 & E1 & Hv1 & _).
    assert (H1 : gameState (this st1) = GAME_OVER /\
                 score (this st1) = score (this st) /\
                 maxScore (this st1) = maxScore (this st) /\
                 gameTime (this st1) = gameTime (this st) /\
                 ticks st1 = ticks st /\
                 gameWindow (this st1) = gameWindow (this st) /\
                 rhino (this st1) = rhino (this st) /\
                 obstacleManager (this st1) = obstacleManager (this st)).
    { destruct Hv as (Hv & _). open_state st Hv. fields in Hg.
      assert (E := E1).
      step_cases i E; fields; try discriminate Hg;
        try (split; [exact Hg|]); try (repeat split; reflexivity).
      now elim Hi. }
    destruct H1 as (G1 & A1 & A2 & A3 & A4 & A5 & A6 & A7).
    destruct (IH st1 Hv1 G1 Hl) as (st' & E & G & B1 & B2 & B3 & B4 & B5 & B6 & B7).
    exists st'. cbn [steps]. unfold bind. rewrite E1.
    split; [exact E|]. split; [exact G|].
    repeat split; congruence.
Qed.

(** X10.  Only a frame in state RUNNING reads the clock or changes
    gameTime, the score or maxScore: after a load, a key event (a restart
    included) or a frame in state GAME_OVER all four are as before. *)
Theorem only_running_frames_count (i : Input) (st : State) :
  initialised (this st) = true ->
  exists st',
    step i st = Some (tt, st') /\
    ((i = Frame /\ gameState (this st) = RUNNING) \/
     (score (this st') = score (this st) /\
      maxScore (this st') = maxScore (this st) /\
      gameTime (this st') = gameTime (this st) /\
      ticks st' = ticks st)).
Proof.
  intro Hi. open_state st Hi. fields.
  destruct i as [| |key]; cbn [step].
  - rewrite load_full. eexists. split; [reflexivity|]. right. repeat split; reflexivity.
  - destruct gs.
    + rewrite run_running. cbv zeta. eexists. split; [reflexivity|]. left. now split.
    + rewrite run_game_over. cbv zeta. eexists. split; [reflexivity|].
      right. repeat split; reflexivity.
  - destruct (GameState_eqb gs GAME_OVER && String.eqb key "Enter") eqn:R.
    + apply andb_true_iff in R as [Rg Rk]. apply String.eqb_eq in Rk. subst key.
      destruct gs; [discriminate Rg|].
      rewrite handleKeyDown_restart. cbv zeta. eexists. split; [reflexivity|].
      right. repeat split; reflexivity.
    + rewrite (handleKeyDown_forward _ _ _ _ _ _ _ _ _ _ _ _ _ _ R). cbv zeta.
      eexists. split; [reflexivity|]. right. repeat split; reflexivity.
Qed.

(** X11.  [init] forgets the session before it.  It succeeds from every
    state of the object, and the fields it leaves depend only on the image
    manager, gameTime and the two scores it found: two objects that agree on
    these, wherever their skiers, rhinos, obstacles and windows were, are
    equal after [init]. *)
Theorem init_forgets (st1 st2 : State) :
  imageManager (this st1) = imageManager (this st2) ->
  gameTime (this st1) = gameTime (this st2) ->
  score (this st1) = score (this st2) ->
  maxScore (this st1) = maxScore (this st2) ->
  exists st1' st2',
    init st1 = Some (tt, st1') /\
    init st2 = Some (tt, st2') /\
    this st1' = this st2' /\
    gameState (this st1') = RUNNING.
Proof.
  destruct st1 as [[cv1 gw1 gt1 im1 om1 s1 r1 gs1 sc1 ms1] clk1 tk1 tr1].
  destruct st2 as [[cv2 gw2 gt2 im2 om2 s2 r2 gs2 sc2 ms2] clk2 tk2 tr2].
  fields. intros -> -> -> ->.
  eexists. eexists. split; [apply init_full|]. split; [apply init_full|].
  cbv zeta. fields. split; reflexivity.
Qed.

(** X12.  The only transitions.  One input in an initialised state changes
    the state from RUNNING to GAME_OVER only if it is a frame after which
    the player is dead, and the score is then 0; it changes the state from
    GAME_OVER to RUNNING only if it is the key Enter. *)
Theorem only_transitions (i : Input) (st : State) :
  initialised (this st) = true ->
  exists st',
    step i st = Some (tt, st') /\
    match gameState (this st), gameState (this st') with
    | RUNNING, GAME_OVER => i = Frame /\ playerDead st' = true /\ score (this st') = 0
    | GAME_OVER, RUNNING => i = KeyDown "Enter"
    | _, _ => True
    end.
Proof.
  intro Hi. open_state st Hi. fields.
  destruct i as [| |key]; cbn [step].
  - rewrite load_full. eexists. split; [reflexivity|]. fields. now destruct gs.
  - destruct gs.
    + rewrite run_running. cbv zeta. eexists. split; [reflexivity|].
      unfold playerDead. fields.
      match goal with |- context [isDead ?a] => destruct (isDead a) end.
      * repeat split; reflexivity.
      * exact I.
    + rewrite run_game_over. cbv zeta. eexists. split; [reflexivity|]. exact I.
  - destruct (GameState_eqb gs GAME_OVER && String.eqb key "Enter") eqn:R.
    + apply andb_true_iff in R as [Rg Rk]. apply String.eqb_eq in Rk. subst key.
      destruct gs; [discriminate Rg|].
      rewrite handleKeyDown_restart. cbv zeta. eexists. split; reflexivity.
    + rewrite (handleKeyDown_forward _ _ _ _ _ _ _ _ _ _ _ _ _ _ R). cbv zeta.
      eexists. split; [reflexivity|]. fields. now destruct gs.
Qed.

(** X13.  A frame in state RUNNING clears the canvas once, before any other
    call on a collaborator, and draws what it has just computed: the draw
    offset is set once, to the corner of the window the frame leaves in
    gameWindow, and the one text drawn is the overlay of the scores as the
    frame leaves them (after the increment, or after the reset). *)
Theorem frame_draws_fresh_values (st : State) :
  initialised (this st) = true ->
  gameState (this st) = RUNNING ->
  exists st' gw' evs,
    run st = Some (tt, st') /\
    trace st' = trace st ++ evs /\
    gameWindow (this st') = Some gw' /\
    filter isClear evs = [EClearCanvas] /\
    hd_error (filter onCollaborator evs) = Some EClearCanvas /\
    filter isSetDrawOffset evs = [ESetDrawOffset (Rect.left gw') (Rect.top gw')] /\
    filter isDrawText evs =
      [EDrawText (scoreText (maxScore (this st')) (score (this st')))
                 (GAME_WIDTH - 30 - 270) 30 "20px Arial" "black"].
Proof.
  intros Hi Hg. open_state st Hi. fields in Hg. subst gs.
  eexists. eexists. eexists. split; [apply run_running|]. cbv zeta. fields.
  split; [reflexivity|]. split; [reflexivity|].
  unfold updateEvents, drawEvents.
  match goal with |- context [isDead ?a] => destruct (isDead a) end;
    repeat split; reflexivity.
Qed.

Lemma steps_running_score (l : list Input) (st : State) :
  Inv st ->
  (forall k s, steps (firstn k l) st = Some (tt, s) -> gameState (this s) = RUNNING) ->
  exists st',
    steps l st = Some (tt, st') /\
    score (this st') == score (this st) + halves (List.length (filter isFrame l)) /\
    maxScore (this st') = maxScore (this st).
Proof.
  revert st. induction l as [|i l IH]; intros st Hv Hr.
  - exists st. split; [reflexivity|]. split; [|reflexivity].
    unfold halves. cbn [filter List.length]. change (inject_Z (Z.of_nat 0)) with 0. lra.
  - destruct (step_Inv i st Hv) as (st1 & E1 & Hv1 & _).
    assert (G0 : gameState (this st) = RUNNING) by (apply (Hr O); reflexivity).
    assert (G1 : gameState (this st1) = RUNNING).
    { apply (Hr 1%nat). cbn [firstn steps]. unfold bind. rewrite E1. reflexivity. }
    destruct (IH st1 Hv1) as (st' & E & Hs & Hm).
    { intros k s Es. apply (Hr (S k)). cbn [firstn steps]. unfold bind. now rewrite E1. }
    exists st'. cbn [steps]. unfold bind at 1. rewrite E1. split; [exact E|].
    rewrite Hs, Hm. clear IH E Hs Hm Hr Hv1.
    destruct Hv as (Hv & _). open_state st Hv. fields in G0.
    assert (E := E1).
    step_cases i E; fields; fields in G1; cbn [filter isFrame List.length];
      try discriminate G0.
    + split; reflexivity.
    + match goal with
      | _ : context [isDead ?a] |- _ => destruct (isDead a)
      end; [discriminate G1|].
      split; [|reflexivity]. rewrite halves_S. lra.
    + split; reflexivity.
Qed.

(** X14.  Key presses and loads do not count.  Along any sequence of inputs
    during which the state stays RUNNING, the score grows by 1/2 for every
    frame of the sequence and by nothing else, and maxScore does not
    change. *)
Theorem score_counts_frames (l : list Input) (st : State) :
  Inv st ->
  (forall k s, steps (firstn k l) st = Some (tt, s) -> gameState (this s) = RUNNING) ->
  exists st',
    steps l st = Some (tt, st') /\
    score (this st') == score (this st) + halves (List.length (filter isFrame l)) /\
    maxScore (this st') = maxScore (this st).
Proof.
  intros Hv Hr.
  destruct (steps_running_score l st Hv Hr) as (st' & E & Hs & Hm).
  exists st'. split; [exact E|]. split; [exact Hs|exact Hm].
Qed.

(** X15.  A new run counts from zero and the best score is kept.  From a
    state GAME_OVER of any session, Enter followed by inputs during which
    the state stays RUNNING ends with a score of 1/2 per frame delivered
    after the restart, and with the maxScore the game had when it was
    over. *)
Theorem new_run_counts_from_zero
        (clk : nat -> number) (l0 l : list Input) (st : State) :
  session clk l0 = Some st ->
  gameState (this st) = GAME_OVER ->
  (forall k s, steps (firstn (S k) (KeyDown "Enter" :: l)) st = Some (tt, s) ->
               gameState (this s) = RUNNING) ->
  exists st',
    steps (KeyDown "Enter" :: l) st = Some (tt, st') /\
    score (this st') == halves (List.length (filter isFrame l)) /\
    maxScore (this st') = maxScore (this st).
Proof.
  intros E Hg Hr.
  destruct (session_Inv clk l0) as (st0 & E0 & Hv).
  rewrite E in E0. injection E0 as <-.
  remember (KeyDown "Enter") as enter eqn:He.
  destruct (step_Inv enter st Hv) as (st1 & E1 & Hv1 & _).
  destruct (steps_running_score l st1 Hv1) as (st' & Es & Hs & Hm).
  { intros k s Ek. apply (Hr k). cbn [firstn steps]. unfold bind. now rewrite E1. }
  exists st'. cbn [steps]. unfold bind at 1. rewrite E1. split; [exact Es|].
  rewrite Hs, Hm. clear Es Hs Hm Hr Hv1 E.
  destruct Hv as (Hi & _ & _ & Hz). specialize (Hz Hg).
  open_state st Hi. fields in Hg. fields in Hz.
  step_cases enter E1; try discriminate He; try discriminate Hg; fields.
  - subst sc. split; [lra|reflexivity].
  - injection He as ->. subst gs. discriminate R.
Qed.

Lemma floor_halves (n : nat) : Math_floor (halves n) = Z.of_nat (n / 2).
Proof.
  unfold Math_floor, halves. cbn [inject_Z Qmult Qnum Qden Qfloor].
  rewrite Z.mul_1_r. change (Z.pos (1 * 2)) with (Z.of_nat 2).
  symmetry. apply Nat2Z.inj_div.
Qed.

(** X16.  The overlay shows whole points.  When the score is n halves and
    maxScore m halves, [drawScore] draws one text, which prints m div 2 and
    n div 2, the halves being dropped and never rounded up; nothing but the
    canvas changes. *)
Theorem overlay_shows_whole_points (n m : nat) (cv : Canvas) (st : State) :
  canvas (this st) = Some cv ->
  score (this st) == halves n ->
  maxScore (this st) == halves m ->
  exists st',
    drawScore st = Some (tt, st') /\
    trace st' = trace st ++
      [ECall m_drawScore;
       EDrawText ("Max Score: " ++ string_of_Z (Z.of_nat (m / 2))
                    ++ "   Score: " ++ string_of_Z (Z.of_nat (n / 2)))%string
                 (GAME_WIDTH - 30 - 270) 30 "20px Arial" "black"] /\
    this st' =
      with_canvas
        (drawText ("Max Score: " ++ string_of_Z (Z.of_nat (m / 2))
                     ++ "   Score: " ++ string_of_Z (Z.of_nat (n / 2)))%string
                  (GAME_WIDTH - 30 - 270) 30 "20px Arial" "black" cv)
        (this st).
Proof.
  destruct st as [[cv0 gw gt im om s r gs sc ms] clk tk tr]. fields.
  intros -> Hs Hm.
  assert (Fs : Math_floor sc = Z.of_nat (n / 2)).
  { rewrite <- floor_halves. apply Qfloor_comp. exact Hs. }
  assert (Fm : Math_floor ms = Z.of_nat (m / 2)).
  { rewrite <- floor_halves. apply Qfloor_comp. exact Hm. }
  eexists. exec. rewrite Fs, Fm. tidy. split; [reflexivity|]. split; reflexivity.
Qed.

Lemma quiet_steps (l : list Input) (st : State) :
  Inv st ->
  gameState (this st) = RUNNING ->
  Forall (fun i => i <> Frame) l ->
  exists st',
    steps l st = Some (tt, st') /\ Inv st' /\
    gameState (this st') = RUNNING /\
    gameWindow (this st') = gameWindow (this st) /\
    score (this st') = score (this st) /\
    ticks st' = ticks st /\ clock st' = clock st.
Proof.
  revert st. induction l as [|i l IH]; intros st Hv Hg Hl.
  - exists st. split; [reflexivity|]. split; [exact Hv|]. split; [exact Hg|].
    repeat split; reflexivity.
  - apply Forall_cons_iff in Hl as [Hi Hl].
    destruct (step_Inv i st Hv) as (st1 & E1 & Hv1 & _).
    assert (H1 : gameState (this st1) = RUNNING /\
                 gameWindow (this st1) = gameWindow (this st) /\
                 score (this st1) = score (this st) /\
                 ticks st1 = ticks st /\ clock st1 = clock st).
    { destruct Hv as (Hv & _). open_state st Hv. fields in Hg.
      assert (E := E1).
      step_cases i E; fields; try discriminate Hg;
        try (split; [exact Hg|]); try (repeat split; reflexivity).
      now elim Hi. }
    destruct H1 as (G1 & A1 & A2 & A3 & A4).
    destruct (IH st1 Hv1 G1 Hl) as (st' & E & Hv' & G & B1 & B2 & B3 & B4).
    exists st'. cbn [steps]. unfold bind. rewrite E1.
    split; [exact E|]. split; [exact Hv'|]. split; [exact G|].
    repeat split; congruence.
Qed.

(** X17.  The obstacle manager is handed consecutive windows.  When a frame
    in state RUNNING is survived and the next frame comes after any number
    of key presses and loads, the previous window that frame hands to
    [placeNewObstacle] is the window the frame before computed. *)
Theorem windows_chain (l : list Input) (st : State) :
  Inv st ->
  gameState (this st) = RUNNING ->
  Forall (fun i => i <> Frame) l ->
  exists st1 gw1,
    run st = Some (tt, st1) /\
    gameWindow (this st1) = Some gw1 /\
    (gameState (this st1) = RUNNING ->
     exists st2 st3 gw2 evs,
       steps l st1 = Some (tt, st2) /\
       run st2 = Some (tt, st3) /\
       trace st3 = trace st2 ++ evs /\
       gameWindow (this st3) = Some gw2 /\
       filter isUpdateStep evs =
         [EDateNow (clock st (S (ticks st))); ECall m_calculateGameWindow;
          EPlaceNewObstacle gw2 gw1;
          ESkierUpdate (clock st (S (ticks st)));
          ERhinoUpdate (clock st (S (ticks st)))]).
Proof.
  intros Hv Hg Hl.
  destruct (step_Inv Frame st Hv) as (st1 & E1 & Hv1 & Hc1 & _). cbn [step] in E1.
  assert (H1 : exists gw1, gameWindow (this st1) = Some gw1 /\ ticks st1 = S (ticks st)).
  { destruct Hv as (Hi & _). open_state st Hi. fields in Hg. subst gs.
    rewrite run_running in E1. cbv zeta in E1. injection E1 as <-. fields.
    eexists. split; reflexivity. }
  destruct H1 as (gw1 & Hw1 & Ht1).
  exists st1, gw1. split; [exact E1|]. split; [exact Hw1|]. intro G1.
  destruct (quiet_steps l st1 Hv1 G1 Hl) as (st2 & E2 & Hv2 & G2 & Hw2 & _ & Ht2 & Hc2).
  rewrite Hw1 in Hw2. rewrite Ht1 in Ht2. rewrite Hc1 in Hc2.
  exists st2. clear E1 Hv1 G1 Hw1 Ht1 Hc1 Hl Hv Hg.
  destruct Hv2 as (Hi & _). open_state st2 Hi.
  fields in G2. fields in Hw2. fields in Ht2. fields in Hc2.
  subst gs. injection Hw2 as ->. subst tk clk.
  eexists. eexists. eexists. split; [exact E2|].
  split; [apply run_running|]. cbv zeta. fields.
  split; [reflexivity|]. split; [reflexivity|].
  unfold updateEvents, drawEvents.
  match goal with |- context [isDead ?a] => destruct (isDead a) end; reflexivity.
Qed.

End Further.

(** * The further properties on the sample game *)

Ltac sample_Inv :=
  unfold Inv; repeat split;
  try reflexivity; try (vm_compute; discriminate);
  try (let H := fresh in intro H; vm_compute in H; discriminate H).

Lemma key_routing_witness :
  exists st',
    handleKeyDown (C := Sample.collaborators) "Enter" Sample.fresh = Some (tt, st') /\
    gameState (this st') = RUNNING /\
    filter isInit (skipn (List.length (trace Sample.fresh)) (trace st')) = [].
Proof.
  destruct (key_routing (C := Sample.collaborators) "Enter" Sample.fresh)
    as (st' & evs & cv & im & om & s & _ & _ & _ & _ & E & Et & _ & _ & _ & Hg);
    [reflexivity|].
  exists st'. split; [exact E|]. split; [exact Hg|].
  vm_compute in E. injection E as <-. vm_compute. reflexivity.
Defined.

Lemma death_then_game_over_witness :
  exists st2,
    run (C := Sample.collaborators) Sample.over = Some (tt, st2) /\
    canvas (this st2)
    = Some (Sample.mkCanvas (0 - 1280 / 2, 20 - 720 / 2)
              ["skier"; "rhino"; "obstacles"; "Max Score: 1   Score: 0";
               "Game Over!"; "Press Enter to restart"]%string).
Proof.
  destruct (death_then_game_over (C := Sample.collaborators) Sample.lastRun Sample.over)
    as (st2 & cv1 & evs1 & evs2 & Ec & _ & _ & _ & _ & E & _ & _ & Hc & _);
    [reflexivity | reflexivity | vm_compute; reflexivity | reflexivity |].
  exists st2. split; [exact E|]. rewrite Hc.
  vm_compute in Ec. injection Ec as <-. vm_compute. reflexivity.
Defined.

Lemma game_over_absorbing_witness :
  exists st',
    steps (C := Sample.collaborators) [Frame; KeyDown "a"; Load; Frame] Sample.over
    = Some (tt, st') /\
    gameState (this st') = GAME_OVER /\
    ticks st' = ticks Sample.over.
Proof.
  destruct (game_over_absorbing (C := Sample.collaborators)
              [Frame; KeyDown "a"; Load; Frame] Sample.over)
    as (st' & E & Hg & _ & _ & _ & Ht & _).
  - sample_Inv.
  - reflexivity.
  - repeat constructor; discriminate.
  - exists st'. split; [exact E|]. split; [exact Hg|exact Ht].
Defined.

Lemma only_running_frames_count_witness :
  exists st',
    step (C := Sample.collaborators) (KeyDown "ArrowLeft") Sample.lastRun
    = Some (tt, st') /\
    score (this st') = score (this Sample.lastRun) /\
    ticks st' = ticks Sample.lastRun.
Proof.
  destruct (only_running_frames_count (C := Sample.collaborators)
              (KeyDown "ArrowLeft") Sample.lastRun)
    as (st' & E & [[H _]|(Hs & _ & _ & Ht)]); [reflexivity | discriminate H |].
  exists st'. split; [exact E|]. split; [exact Hs|exact Ht].
Defined.

Lemma init_forgets_witness :
  exists st1' st2',
    init (C := Sample.collaborators) Sample.over = Some (tt, st1') /\
    init (C := Sample.collaborators)
         (Sample.after [Load; Frame; Frame; Frame; KeyDown "ArrowLeft"])
    = Some (tt, st2') /\
    skier (this Sample.over)
    <> skier (this (Sample.after [Load; Frame; Frame; Frame; KeyDown "ArrowLeft"])) /\
    this st1' = this st2'.
Proof.
  destruct (init_forgets (C := Sample.collaborators) Sample.over
              (Sample.after [Load; Frame; Frame; Frame; KeyDown "ArrowLeft"]))
    as (st1' & st2' & E1 & E2 & H & _); [vm_compute; reflexivity ..|].
  exists st1', st2'. split; [exact E1|]. split; [exact E2|]. split; [|exact H].
  vm_compute. discriminate.
Defined.

Lemma only_transitions_witness :
  exists st',
    step (C := Sample.collaborators) Frame Sample.lastRun = Some (tt, st') /\
    gameState (this st') = GAME_OVER /\
    playerDead st' = true.
Proof.
  destruct (only_transitions (C := Sample.collaborators) Frame Sample.lastRun)
    as (st' & E & H); [reflexivity|].
  exists st'. split; [exact E|].
  assert (G : gameState (this st') = GAME_OVER).
  { vm_compute in E. injection E as <-. reflexivity. }
  split; [exact G|].
  rewrite G in H. change (gameState (this Sample.lastRun)) with RUNNING in H.
  apply H.
Defined.

Lemma frame_draws_fresh_values_witness :
  exists st',
    run (C := Sample.collaborators) Sample.fresh = Some (tt, st') /\
    filter isDrawText (skipn (List.length (trace Sample.fresh)) (trace st'))
    = [EDrawText "Max Score: 0   Score: 0" (1280 - 30 - 270) 30 "20px Arial" "black"].
Proof.
  destruct (frame_draws_fresh_values (C := Sample.collaborators) Sample.fresh)
    as (st' & gw' & evs & E & _); [reflexivity | reflexivity |].
  exists st'. split; [exact E|].
  vm_compute in E. injection E as <-. vm_compute. reflexivity.
Defined.

Lemma score_counts_frames_witness :
  exists st',
    steps (C := Sample.collaborators) [Frame; KeyDown "ArrowLeft"; Frame] Sample.fresh
    = Some (tt, st') /\
    score (this st') == 1 /\
    maxScore (this st') = 0.
Proof.
  destruct (score_counts_frames (C := Sample.collaborators)
              [Frame; KeyDown "ArrowLeft"; Frame] Sample.fresh)
    as (st' & E & Hs & Hm).
  - sample_Inv.
  - intros k s Ek.
    destruct k as [|[|[|[|k]]]]; vm_compute in Ek; injection Ek as <-; reflexivity.
  - exists st'. split; [exact E|]. split; [|exact Hm].
    rewrite Hs. vm_compute. reflexivity.
Defined.

Lemma new_run_counts_from_zero_witness :
  exists st',
    steps (C := Sample.collaborators)
          [KeyDown "Enter"; Frame; KeyDown "ArrowLeft"; Frame]
          (sampleAfter stopwatch [Load; Frame; Frame; Frame])
    = Some (tt, st') /\
    score (this st') == 1 /\
    maxScore (this st') == 1.
Proof.
  destruct (new_run_counts_from_zero (C := Sample.collaborators) stopwatch
              [Load; Frame; Frame; Frame] [Frame; KeyDown "ArrowLeft"; Frame]
              (sampleAfter stopwatch [Load; Frame; Frame; Frame]))
    as (st' & E & Hs & Hm).
  - vm_compute. reflexivity.
  - reflexivity.
  - intros k s Ek.
    destruct k as [|[|[|[|k]]]]; vm_compute in Ek; injection Ek as <-; reflexivity.
  - exists st'. split; [exact E|]. split.
    + rewrite Hs. vm_compute. reflexivity.
    + rewrite Hm. vm_compute. reflexivity.
Defined.

Lemma overlay_shows_whole_points_witness :
  exists st',
    drawScore (C := Sample.collaborators) threeHalves = Some (tt, st') /\
    canvas (this st') = Some (Sample.mkCanvas (0, 0) ["Max Score: 2   Score: 1"%string]).
Proof.
  destruct (overlay_shows_whole_points (C := Sample.collaborators) 3 4 blankCanvas
              threeHalves)
    as (st' & E & _ & Hthis);
    [reflexivity | vm_compute; reflexivity | vm_compute; reflexivity |].
  exists st'. split; [exact E|]. rewrite Hthis. reflexivity.
Defined.

Lemma windows_chain_witness :
  exists st1 st2 st3,
    run (C := Sample.collaborators) Sample.fresh = Some (tt, st1) /\
    steps [KeyDown "ArrowLeft"; Load] st1 = Some (tt, st2) /\
    run st2 = Some (tt, st3) /\
    gameWindow (this st3) <> gameWindow (this st1).
Proof.
  destruct (windows_chain (C := Sample.collaborators) [KeyDown "ArrowLeft"; Load]
              Sample.fresh)
    as (st1 & gw1 & E1 & Hw1 & H).
  - sample_Inv.
  - reflexivity.
  - repeat constructor; discriminate.
  - assert (G1 : gameState (this st1) = RUNNING).
    { vm_compute in E1. injection E1 as <-. reflexivity. }
    destruct (H G1) as (st2 & st3 & gw2 & evs & E2 & E3 & _).
    exists st1, st2, st3. split; [exact E1|]. split; [exact E2|]. split; [exact E3|].
    vm_compute in E1. injection E1 as <-.
    vm_compute in E2. injection E2 as <-.
    vm_compute in E3. injection E3 as <-.
    vm_compute. discriminate.
Defined.

(** * The game over with a terminal dead state *)

Section TerminalDead.

Context {C : Collaborators}.



End TerminalDead.


